(** * AICA incident-update server: the sanitizer, cadence policy, export
      templates and the [/generate] handler of [server/main.py]

    The development embeds the functions of [server/main.py] as Rocq
    functions and proves the properties of the text sanitizer
    ([sanitize_text]), of the cadence policy ([default_cadence]), of the
    export templates ([format_templates]) and of the request handler
    ([generate]).

    Python strings are sequences of Unicode code points, modelled as
    [list N].  The classification of the code points up to U+00FF, the
    white-space and line-break characters and the case variants of the
    ASCII letters are written out; the rest of the Unicode character
    database of the Python runtime (which code points above U+00FF are
    alphanumeric or decimal digits, and [str.upper]/[str.lower] on text that
    is not ASCII) is a parameter [db] of the development. *)

From Stdlib Require Import NArith Ascii String List Bool Arith Lia.
From stdpp Require Import gmap strings list fin_maps.

Local Open Scope N_scope.
Local Open Scope nat_scope.

(** ** Python strings *)

(** A string literal of the source, as its code points (the literals used
    with [str] are ASCII). *)
Definition str (s : string) : list N :=
  map N_of_ascii (list_ascii_of_string s).

Definition code (a : ascii) : N := N_of_ascii a.

(** The part of the Unicode character database that is not written out
    below. *)
Record unicode_db := {
  wide_alnum : N -> bool;          (* [str.isalnum] above U+00FF *)
  wide_decimal : N -> bool;        (* [str.isdecimal] above U+00FF *)
  wide_upper : list N -> list N;   (* [str.upper] of text that is not ASCII *)
  wide_lower : list N -> list N    (* [str.lower] of text that is not ASCII *)
}.

Definition in_range (c : N) (r : N * N) : bool :=
  (fst r <=? c)%N && (c <=? snd r)%N.

Definition in_ranges (rs : list (N * N)) (c : N) : bool :=
  existsb (in_range c) rs.

(** [str.isspace], also the class [\s] of [re]. *)
Definition is_space (c : N) : bool :=
  in_ranges [(9, 13); (28, 32); (133, 133); (160, 160); (5760, 5760);
             (8192, 8202); (8232, 8233); (8239, 8239); (8287, 8287);
             (12288, 12288)]%N c.

(** The characters at which [str.splitlines] breaks a line. *)
Definition is_linebreak (c : N) : bool :=
  in_ranges [(10, 13); (28, 30); (133, 133); (8232, 8233)]%N c.

Definition latin1_alnum (c : N) : bool :=
  in_ranges [(48, 57); (65, 90); (97, 122); (170, 170); (178, 179);
             (181, 181); (185, 186); (188, 190); (192, 214); (216, 246);
             (248, 255)]%N c.

Definition is_ascii (c : N) : bool := (c <? 128)%N.

Definition ascii_upper (c : N) : N :=
  if in_range c (97, 122)%N then (c - 32)%N else c.

Definition ascii_lower (c : N) : N :=
  if in_range c (65, 90)%N then (c + 32)%N else c.

(** The ASCII characters that [c] equals when case is ignored, other than
    [c] itself: the other case of an ASCII letter, and the ASCII letters
    that the four characters U+0130, U+0131, U+017F and U+212A fold to. *)
Definition case_variants (c : N) : list N :=
  if in_range c (97, 122)%N then [(c - 32)%N]
  else if in_range c (65, 90)%N then [(c + 32)%N]
  else if (c =? 304)%N || (c =? 305)%N then [105; 73]%N
  else if (c =? 383)%N then [115; 83]%N
  else if (c =? 8490)%N then [107; 75]%N
  else [].

Section Text.

Context (db : unicode_db).

(** [\d] of [re] on [str] patterns: the decimal digits.  The database is
    asked about the code points above U+00FF that are not white space (no
    white-space character is a digit or alphanumeric). *)
Definition is_digit (c : N) : bool :=
  if (c <? 256)%N then in_range c (48, 57)%N
  else if is_space c then false
  else wide_decimal db c.

Definition is_alnum (c : N) : bool :=
  if (c <? 256)%N then latin1_alnum c
  else if is_space c then false
  else wide_alnum db c.

(** [\w] of [re] on [str] patterns: alphanumeric or the underscore. *)
Definition is_word (c : N) : bool := (c =? 95)%N || is_alnum c.

Definition py_upper (s : list N) : list N :=
  if forallb is_ascii s then map ascii_upper s else wide_upper db s.

Definition py_lower (s : list N) : list N :=
  if forallb is_ascii s then map ascii_lower s else wide_lower db s.

(** [str.strip()] *)
Fixpoint lstrip (s : list N) : list N :=
  match s with
  | c :: s' => if is_space c then lstrip s' else s
  | [] => []
  end.

Definition strip (s : list N) : list N := rev (lstrip (rev (lstrip s))).

(** [sep.join(parts)] *)
Fixpoint join (sep : list N) (parts : list (list N)) : list N :=
  match parts with
  | [] => []
  | [p] => p
  | p :: ps => p ++ sep ++ join sep ps
  end.

(** [str.splitlines()]: the lines without their terminators; [\r\n] is one
    terminator, and a terminator at the very end opens no further line. *)
Fixpoint splitlines (s : list N) : list (list N) :=
  match s with
  | [] => []
  | c :: rest =>
      if is_linebreak c then
        [] :: match rest with
              | c' :: rest' =>
                  if (c =? 13)%N && (c' =? 10)%N then splitlines rest'
                  else splitlines rest
              | [] => []
              end
      else
        match splitlines rest with
        | [] => [[c]]
        | l :: ls => (c :: l) :: ls
        end
  end.

(** [s[a:b]] for [0 <= a], [0 <= b]. *)
Definition slice (s : list N) (a b : nat) : list N :=
  firstn (b - a) (skipn a s).

(** ** The regular expressions of [re], as far as the source uses them *)

Inductive charset :=
| CChar (c : N)                   (* a literal character *)
| CSet (ranges : list (N * N))    (* [...], a single character as a range *)
| CDigit                          (* \d *)
| CSpace.                         (* \s *)

Inductive regex :=
| Eps
| Sym (p : charset)
| WordB                                        (* \b *)
| Seq (r1 r2 : regex)
| Alt (r1 r2 : regex)                          (* r1|r2 *)
| Rep (r : regex) (mn : nat) (mx : option nat). (* greedy r{mn,mx} *)

(** [accepts ic p c]: the character [c] is in [p]; [ic] is [re.IGNORECASE]. *)
Definition accepts (ic : bool) (p : charset) (c : N) : bool :=
  match p with
  | CChar x => (c =? x)%N || (ic && existsb (N.eqb x) (case_variants c))
  | CSet rs => in_ranges rs c || (ic && existsb (in_ranges rs) (case_variants c))
  | CDigit => is_digit c
  | CSpace => is_space c
  end.

Definition word_opt (o : option N) : bool :=
  match o with Some c => is_word c | None => false end.

Definition prev_char (s : list N) (i : nat) : option N :=
  match i with 0 => None | S k => nth_error s k end.

(** [\b] holds at position [i] of [s]. *)
Definition is_boundary (s : list N) (i : nat) : bool :=
  xorb (word_opt (prev_char s i)) (word_opt (nth_error s i)).

(** The greedy loop of [r{mn,mx}]: [body i] lists the positions where one
    more copy of [r] can end; a copy that consumes nothing ends the loop
    (no loop body of the patterns below can match the empty string). *)
Fixpoint rep_loop (body : nat -> list nat) (fuel mn : nat) (mx : option nat)
    (i : nat) : list nat :=
  let stop := match mn with 0 => [i] | S _ => [] end in
  match fuel, mx with
  | _, Some 0 => stop
  | 0, _ => stop
  | S f, _ =>
      flat_map (fun k => if i <? k
                         then rep_loop body f (pred mn) (option_map pred mx) k
                         else [])
               (body i) ++ stop
  end.

(** The backtracking matcher: [ends ic s r i] lists the positions where a
    match of [r] starting at position [i] of [s] can end, in the order in
    which the backtracking engine of [re] tries them. *)
Fixpoint ends (ic : bool) (s : list N) (r : regex) (i : nat) : list nat :=
  match r with
  | Eps => [i]
  | Sym p =>
      match nth_error s i with
      | Some c => if accepts ic p c then [S i] else []
      | None => []
      end
  | WordB => if is_boundary s i then [i] else []
  | Seq r1 r2 => flat_map (ends ic s r2) (ends ic s r1 i)
  | Alt r1 r2 => ends ic s r1 i ++ ends ic s r2 i
  | Rep r1 mn mx => rep_loop (ends ic s r1) (length s) mn mx i
  end.

(** The first match that starts at [pos] or later. *)
Fixpoint search_from (ic : bool) (s : list N) (r : regex) (fuel pos : nat)
    : option (nat * nat) :=
  match fuel with
  | 0 => None
  | S f =>
      match ends ic s r pos with
      | j :: _ => Some (pos, j)
      | [] => search_from ic s r f (S pos)
      end
  end.

Definition search_at (ic : bool) (s : list N) (r : regex) (pos : nat)
    : option (nat * nat) :=
  search_from ic s r (S (length s) - pos) pos.

(** [re.search(r, s)] as the span of the match. *)
Definition re_search (ic : bool) (r : regex) (s : list N) : option (nat * nat) :=
  search_at ic s r 0.

(** [re.sub(r, repl, s)] for a replacement without group references: the
    matches are found from left to right without overlap, and an empty match
    is replaced and the scan moves on by one character. *)
Fixpoint sub_from (ic : bool) (r : regex) (repl s : list N) (fuel pos : nat)
    : list N :=
  match fuel with
  | 0 => skipn pos s
  | S f =>
      match search_at ic s r pos with
      | None => skipn pos s
      | Some (i, j) =>
          slice s pos i ++ repl ++
          (if i <? j then sub_from ic r repl s f j
           else slice s i (S i) ++ sub_from ic r repl s f (S i))
      end
  end.

Definition re_sub (ic : bool) (r : regex) (repl s : list N) : list N :=
  sub_from ic r repl s (S (length s)) 0.

End Text.

(** ** Writing the patterns of the source *)

Definition rng (a b : ascii) : N * N := (code a, code b).
Definition one (a : ascii) : N * N := (code a, code a).
Definition chr (a : ascii) : regex := Sym (CChar (code a)).

Fixpoint cat (rs : list regex) : regex :=
  match rs with
  | [] => Eps
  | [r] => r
  | r :: rs' => Seq r (cat rs')
  end.

Fixpoint alts (rs : list regex) : regex :=
  match rs with
  | [] => Eps
  | [r] => r
  | r :: rs' => Alt r (alts rs')
  end.

Definition lit (s : string) : regex := cat (map chr (list_ascii_of_string s)).

(** ** [server/main.py] *)

(** [SEVERITY_CADENCE] *)
Definition SEVERITY_CADENCE : gmap (list N) (list N) :=
  <[str "SEV1" := str "30 minutes"]>
  (<[str "SEV2" := str "60 minutes"]>
  (<[str "SEV3" := str "2 hours"]>
  (<[str "SEV4" := str "daily or on meaningful change"]> ∅))).

(** [r"\b(?:\d{1,3}\.){3}\d{1,3}\b"] *)
Definition ip_pattern : regex :=
  cat [WordB;
       Rep (cat [Rep (Sym CDigit) 1 (Some 3); chr "."]) 3 (Some 3);
       Rep (Sym CDigit) 1 (Some 3);
       WordB].

(** [r"[A-Za-z0-9._%+-]+@[A-Za-z0-9.-]+\.[A-Za-z]{2,}"] *)
Definition email_pattern : regex :=
  cat [Rep (Sym (CSet [rng "A" "Z"; rng "a" "z"; rng "0" "9"; one ".";
                       one "_"; one "%"; one "+"; one "-"])) 1 None;
       chr "@";
       Rep (Sym (CSet [rng "A" "Z"; rng "a" "z"; rng "0" "9"; one ".";
                       one "-"])) 1 None;
       chr ".";
       Rep (Sym (CSet [rng "A" "Z"; rng "a" "z"])) 2 None].

Definition host_label : regex :=
  Rep (Sym (CSet [rng "a" "z"; rng "A" "Z"; rng "0" "9"; one "-"])) 1 None.

(** [r"\b[a-zA-Z0-9-]+(?:\.[a-zA-Z0-9-]+)+\b"] *)
Definition hostname_pattern : regex :=
  cat [WordB; host_label; Rep (cat [chr "."; host_label]) 1 None; WordB].

(** [r"\b(?:id|internal[-_ ]?id)[:# ]?\s*[A-Za-z0-9_-]{6,}\b"] *)
Definition id_pattern : regex :=
  cat [WordB;
       Alt (lit "id")
           (cat [lit "internal";
                 Rep (Sym (CSet [one "-"; one "_"; one " "])) 0 (Some 1);
                 lit "id"]);
       Rep (Sym (CSet [one ":"; one "#"; one " "])) 0 (Some 1);
       Rep (Sym CSpace) 0 None;
       Rep (Sym (CSet [rng "A" "Z"; rng "a" "z"; rng "0" "9"; one "_";
                       one "-"])) 6 None;
       WordB].

(** [r"Traceback|Exception|Error:| at \\/| at \\\\|Caused by:"]: in the raw
    string each [\\] is an escaped backslash of the pattern, so the fourth
    alternative is the six characters space, a, t, space, backslash, slash
    and the fifth ends in two backslashes. *)
Definition stack_pattern : regex :=
  alts [lit "Traceback"; lit "Exception"; lit "Error:"; lit " at \/";
        lit " at \\"; lit "Caused by:"].

(** The dicts [{"token": ..., "action": ...}] of the notes. *)
Record note := { token : list N; action : list N }.

Record sanitized := { text : list N; notes : list note }.

(** [rules] of [sanitize_text]: pattern, replacement, label. *)
Definition rules : list (regex * list N * list N) :=
  [(ip_pattern, str "[redacted-ip]", str "ip");
   (email_pattern, str "[redacted-email]", str "email");
   (hostname_pattern, str "[redacted-host]", str "hostname");
   (id_pattern, str "[redacted-id]", str "internal-id")].

Section Server.

Context (db : unicode_db).

(** The truth value of [re.search(pattern, s, flags)]. *)
Definition has_match (ic : bool) (r : regex) (s : list N) : bool :=
  match re_search db ic r s with Some _ => true | None => false end.

(** [default_cadence] *)
Definition default_cadence (severity : list N) : list N :=
  default (str "60 minutes") (SEVERITY_CADENCE !! py_upper db severity).

(** One turn of the loop over [rules] in [sanitize_text]. *)
Definition apply_rule (st : list N * list note)
    (rule : regex * list N * list N) : list N * list note :=
  let '(redacted, notes) := st in
  let '(pattern, repl, label) := rule in
  if has_match true pattern redacted
  then (re_sub db true pattern repl redacted,
        notes ++ [{| token := label; action := str "redacted" |}])
  else (redacted, notes).

(** The loop over [rules]: the redacted text and the notes so far. *)
Definition redact (text : list N) : list N * list note :=
  fold_left apply_rule rules (text, []).

(** One turn of the loop over the lines in [sanitize_text]. *)
Definition filter_line (st : list (list N) * list note) (line : list N)
    : list (list N) * list note :=
  let '(filtered_lines, notes) := st in
  if has_match false stack_pattern line
  then (filtered_lines,
        notes ++ [{| token := str "stack-trace-line"; action := str "removed" |}])
  else (filtered_lines ++ [line], notes).

(** [sanitize_text] *)
Definition sanitize_text (text : list N) : sanitized :=
  let '(redacted, notes) := redact text in
  let '(filtered_lines, notes) :=
    fold_left filter_line (splitlines redacted) ([], notes) in
  {| text := join (str (String "010" "")) filtered_lines; notes := notes |}.

End Server.

(** ** The generative backend and the process environment

    [runtime] holds what [generate] reads from outside: the environment
    variables and the backend.  [backend model prompt] is what
    [OpenAI().responses.create(...)] does: it raises ([Raised] also stands
    for a failing import, constructor or temperature parse, all inside the
    same [try]) or returns a response with its [output] items. *)

Record part := { part_type : list N; part_text : list N }.

Record output_item := { item_type : list N; item_content : list part }.

Inductive reply :=
| Raised
| Output (items : list output_item).

Record runtime := {
  OPENAI_API_KEY : option (list N);
  OPENAI_MODEL : option (list N);
  backend : list N -> list N -> reply
}.

(** The drafts, exports and metadata of the response of [generate]. *)
Record drafts_t := { short : list N; standard : list N; detailed : list N }.

Record exports_t := { statuspage : list N; email : list N }.

Record guardrails_t := { guard_notes : list note; blocked : bool }.

Record meta_t := {
  meta_severity : list N;
  meta_next_update : list N;
  meta_stage : list N;
  llm_mode : list N;
  llm_used : bool;
  llm_model : option (list N)
}.

Record response := {
  drafts : drafts_t;
  exports : exports_t;
  guardrails : guardrails_t;
  meta : meta_t
}.

Definition newline : list N := [10%N].

(** The truth value of an optional string: [None] and [""] are false. *)
Definition truthy (o : option (list N)) : bool :=
  match o with
  | Some (_ :: _) => true
  | _ => false
  end.

(** [value or fallback] *)
Definition or_else (o : option (list N)) (fallback : list N) : list N :=
  if truthy o then default [] o else fallback.

(** [format_templates] *)
Definition format_templates (stage text next_update : list N) : exports_t :=
  let '(title, email_subject) :=
    if decide (stage = str "initial") then
      (str "Service Degradation " ++ [8211%N] ++ str " Update",
       str "[Incident] Initial Notice")
    else if decide (stage = str "resolution") then
      (str "Incident Resolved " ++ [8211%N] ++ str " Summary",
       str "[Incident] Resolved")
    else
      (str "Incident Update " ++ [8211%N] ++ str " Progress",
       str "[Incident] Update") in
  let statuspage :=
    [title; []; text; []; str "Next update: " ++ next_update] in
  let email_lines :=
    [email_subject; []; text; []; str "Next update: " ++ next_update] in
  {| statuspage := firstn 2000 (join newline statuspage);
     email := join newline email_lines |}.

Section Handler.

Context (db : unicode_db).

(** [build_prompt] *)
Definition build_prompt (stage : list N) (payload : gmap string (list N))
    : list N :=
  let tone :=
    str "You are AICA, an AI assistant generating customer-facing incident updates. "
    ++ str "Be clear, empathetic, and non-speculative. Avoid internal details, stack traces, hostnames, IPs, and employee names. "
    ++ str "Use simple language, keep within the length bound, and conclude with an explicit next-update time." in
  let severity := default (str "SEV3") (payload !! "severity") in
  let next_update :=
    or_else (payload !! "next_update") (default_cadence db severity) in
  let summary := strip (default [] (payload !! "summary")) in
  let impact := strip (default [] (payload !! "impact")) in
  let mitigation := strip (default (str "investigating") (payload !! "mitigation")) in
  let bounds :=
    if decide (stage = str "initial") then str "150"
    else if decide (stage = str "ongoing") then str "200"
    else if decide (stage = str "resolution") then str "250"
    else str "200" in
  str "Tone & Policy: " ++ tone ++ newline ++ newline
  ++ str "Stage: " ++ stage ++ newline ++ str "Severity: " ++ severity
  ++ newline ++ str "Next-Update: " ++ next_update ++ newline
  ++ str "MitigationStatus: " ++ mitigation ++ newline ++ str "Impact: "
  ++ impact ++ newline ++ str "Summary: " ++ summary ++ newline ++ newline
  ++ str "Length bound: <= " ++ bounds ++ str " words." ++ newline
  ++ str "Output plain text suitable for customers.".

(** The text that [try_llm_generate] collects from a response, before and
    after [strip()]. *)
Definition response_text (items : list output_item) : list N :=
  let parts :=
    flat_map (fun item =>
      if decide (item_type item = str "message") then
        flat_map (fun c =>
          if decide (part_type c = str "output_text") then [part_text c]
          else []) (item_content item)
      else []) items in
  join newline (List.filter (fun p => negb (Nat.eqb (length p) 0)) parts).

Definition output_text (items : list output_item) : list N :=
  strip (response_text items).

(** [try_llm_generate]: the dict [{}] is [None], the dict
    [{"standard": text}] is [Some text]. *)
Definition try_llm_generate (rt : runtime) (stage : list N)
    (payload : gmap string (list N)) : option (list N) :=
  if negb (truthy (OPENAI_API_KEY rt)) then None
  else
    match backend rt (default (str "gpt-4o-mini") (OPENAI_MODEL rt))
                  (build_prompt stage payload) with
    | Raised => None
    | Output items =>
        match output_text items with
        | [] => None
        | text => Some text
        end
    end.

(** [templated], the closure of [generate], with the variables it reads. *)
Definition templated (payload : gmap string (list N))
    (severity next_update style : list N) : list N :=
  let base :=
    str "We are " ++ default (str "investigating") (payload !! "mitigation")
    ++ str " an issue impacting "
    ++ default (str "unspecified scope") (payload !! "impact") ++ str ". "
    ++ str "Severity: " ++ severity ++ str ". Next update in " ++ next_update
    ++ str ". "
    ++ str "Summary: " ++ strip (default [] (payload !! "summary")) in
  if decide (style = str "short") then base
  else if decide (style = str "standard") then
    base ++ str " We will provide further details as they are verified."
  else
    base ++ str " Resolution steps are underway; we will share a full summary post-resolution.".

(** One turn of the loop over [fields] in [generate]: the dict [payload] is
    updated in place. *)
Definition sanitize_field (st : gmap string (list N) * list note) (f : string)
    : gmap string (list N) * list note :=
  let '(payload, redaction_notes) := st in
  let redacted := sanitize_text db (default [] (payload !! f)) in
  (<[f := text redacted]> payload, redaction_notes ++ notes redacted).

(** [generate]: the content of the JSON response, and the dict [payload] as
    the call leaves it. *)
Definition generate (rt : runtime) (payload : gmap string (list N))
    : response * gmap string (list N) :=
  let stage := py_lower db (or_else (payload !! "stage") (str "ongoing")) in
  let severity := default (str "SEV3") (payload !! "severity") in
  let next_update :=
    or_else (payload !! "next_update") (default_cadence db severity) in
  let '(payload, redaction_notes) :=
    fold_left sanitize_field ["summary"; "impact"] (payload, []) in
  let llm_out := try_llm_generate rt stage payload in
  let llm_mode :=
    if truthy (OPENAI_API_KEY rt) then str "openai" else str "template" in
  let llm_used := match llm_out with Some _ => true | None => false end in
  let drafts :=
    {| short := templated payload severity next_update (str "short");
       standard :=
         match llm_out with
         | Some t => t
         | None => templated payload severity next_update (str "standard")
         end;
       detailed := templated payload severity next_update (str "detailed") |} in
  let exports := format_templates stage (standard drafts) next_update in
  ({| drafts := drafts;
      exports := exports;
      guardrails := {| guard_notes := redaction_notes; blocked := false |};
      meta := {| meta_severity := severity;
                 meta_next_update := next_update;
                 meta_stage := stage;
                 llm_mode := llm_mode;
                 llm_used := llm_used;
                 llm_model := if llm_used then OPENAI_MODEL rt else None |} |},
   payload).

End Handler.

(** ** What a pattern matches

    [matches s r i j]: the pattern [r] matches the characters of [s] from
    position [i] up to position [j], read inside [s] (a [\b] looks at the
    characters around it).  [ends] lists exactly these [j]. *)

Section Semantics.

Context (db : unicode_db) (ic : bool).

Inductive matches (s : list N) : regex -> nat -> nat -> Prop :=
| m_eps i : matches s Eps i i
| m_sym p c i :
    nth_error s i = Some c -> accepts db ic p c = true ->
    matches s (Sym p) i (S i)
| m_wordb i : is_boundary db s i = true -> matches s WordB i i
| m_seq r1 r2 i k j :
    matches s r1 i k -> matches s r2 k j -> matches s (Seq r1 r2) i j
| m_alt_l r1 r2 i j : matches s r1 i j -> matches s (Alt r1 r2) i j
| m_alt_r r1 r2 i j : matches s r2 i j -> matches s (Alt r1 r2) i j
| m_rep_stop r mx i : matches s (Rep r 0 mx) i i
| m_rep_step r mn mx i k j :
    mx <> Some 0 -> matches s r i k -> i < k ->
    matches s (Rep r (pred mn) (option_map pred mx)) k j ->
    matches s (Rep r mn mx) i j.

(** No part of [s] matches [r]. *)
Definition clean (r : regex) (s : list N) : Prop :=
  forall i j, ~ matches s r i j.

(** [alpha r c]: some character position of [r] accepts [c]. *)
Fixpoint alpha (r : regex) (c : N) : bool :=
  match r with
  | Eps | WordB => false
  | Sym p => accepts db ic p c
  | Seq r1 r2 | Alt r1 r2 => alpha r1 c || alpha r2 c
  | Rep r1 _ _ => alpha r1 c
  end.

(** A lower bound on the length of a match. *)
Fixpoint minlen (r : regex) : nat :=
  match r with
  | Eps | WordB => 0
  | Sym _ => 1
  | Seq r1 r2 => minlen r1 + minlen r2
  | Alt r1 r2 => Nat.min (minlen r1) (minlen r2)
  | Rep r1 mn _ => mn * minlen r1
  end.

(** A character that [r] cannot read and that is no word character. *)
Definition barrier (r : regex) (c : N) : Prop :=
  alpha r c = false /\ is_word db c = false.

End Semantics.

(** The pattern has no [\b]. *)
Fixpoint wordb_free (r : regex) : bool :=
  match r with
  | Eps | Sym _ => true
  | WordB => false
  | Seq r1 r2 | Alt r1 r2 => wordb_free r1 && wordb_free r2
  | Rep r1 _ _ => wordb_free r1
  end.

Fixpoint starts_with_wordb (r : regex) : bool :=
  match r with
  | WordB => true
  | Seq r1 _ => starts_with_wordb r1
  | _ => false
  end.

Fixpoint ends_with_wordb (r : regex) : bool :=
  match r with
  | WordB => true
  | Seq _ r2 => ends_with_wordb r2
  | _ => false
  end.

(** Every decimal digit of [s] is one of the ASCII digits. *)
Definition ascii_digits (db : unicode_db) (s : list N) : bool :=
  forallb (fun c => implb (is_digit db c) (in_range c (48, 57)%N)) s.

(** The line matches the pattern of the stack-trace filter. *)
Definition is_stack_line (db : unicode_db) (line : list N) : bool :=
  has_match db false stack_pattern line.

(** [s[a:b]] is a line of [s]: it starts at the start of [s] or after a
    line break, and ends at the end of [s] or before a line break. *)
Definition line_at (s : list N) (a b : nat) : Prop :=
  a <= b <= length s /\
  match prev_char s a with Some c => is_linebreak c = true | None => True end /\
  match nth_error s b with Some c => is_linebreak c = true | None => True end.

(** [lines] are lines of [s], the first one at the start of [s]. *)
Definition lines_of (s : list N) (lines : list (list N)) : Prop :=
  match lines with
  | [] => True
  | l :: ls =>
      (exists b, l = slice s 0 b /\ line_at s 0 b) /\
      Forall (fun l' => exists a b, l' = slice s (S a) b /\ line_at s (S a) b) ls
  end.

(** [d.startswith(m)] and [m in d] of Python. *)
Fixpoint starts_with (m d : list N) : bool :=
  match m, d with
  | [], _ => true
  | x :: m', y :: d' => (x =? y)%N && starts_with m' d'
  | _ :: _, [] => false
  end.

Fixpoint str_in (m d : list N) : bool :=
  starts_with m d ||
  match d with
  | [] => false
  | _ :: d' => str_in m d'
  end.

(** A process without a backend: no API key in the environment. *)
Definition no_backend : runtime :=
  {| OPENAI_API_KEY := None;
     OPENAI_MODEL := None;
     backend := fun _ _ => Raised |}.

(** A configured backend that answers with white space only, and one that
    answers with a sentence. *)
Definition blank_backend : runtime :=
  {| OPENAI_API_KEY := Some (str "sk-test");
     OPENAI_MODEL := None;
     backend := fun _ _ =>
       Output [{| item_type := str "message";
                  item_content :=
                    [{| part_type := str "output_text";
                        part_text := str "  " |}] |}] |}.

Definition answering_backend : runtime :=
  {| OPENAI_API_KEY := Some (str "sk-test");
     OPENAI_MODEL := None;
     backend := fun _ _ =>
       Output [{| item_type := str "message";
                  item_content :=
                    [{| part_type := str "output_text";
                        part_text := str "All systems are operating normally." |}] |}] |}.

(** The request body [{summary: "X", severity: "SEV2", stage: "initial"}]. *)
Definition initial_request : gmap string (list N) :=
  <["summary" := str "X"]>
  (<["severity" := str "SEV2"]> (<["stage" := str "initial"]> ∅)).

(** The dict [payload] after the loop over [fields] of [generate]. *)
Definition sanitized_payload (db : unicode_db) (payload : gmap string (list N))
    : gmap string (list N) :=
  <["impact" := text (sanitize_text db (default [] (payload !! "impact")))]>
  (<["summary" := text (sanitize_text db (default [] (payload !! "summary")))]>
     payload).

(** The stage, severity and next update that [generate] works with. *)
Definition request_stage (db : unicode_db) (payload : gmap string (list N))
    : list N :=
  py_lower db (or_else (payload !! "stage") (str "ongoing")).

Definition request_severity (payload : gmap string (list N)) : list N :=
  default (str "SEV3") (payload !! "severity").

Definition request_next_update (db : unicode_db)
    (payload : gmap string (list N)) : list N :=
  or_else (payload !! "next_update")
    (default_cadence db (request_severity payload)).

(** The call that [try_llm_generate] makes to the backend for a request. *)
Definition backend_call (db : unicode_db) (rt : runtime)
    (payload : gmap string (list N)) : reply :=
  backend rt (default (str "gpt-4o-mini") (OPENAI_MODEL rt))
    (build_prompt db (request_stage db payload) (sanitized_payload db payload)).

(** The backend yields nothing that [try_llm_generate] can use for the
    request: there is no API key, or the call raises, or it returns text
    that is empty or white space only. *)
Definition backend_fails (db : unicode_db) (rt : runtime)
    (payload : gmap string (list N)) : Prop :=
  truthy (OPENAI_API_KEY rt) = false \/
  match backend_call db rt payload with
  | Raised => True
  | Output items => forallb is_space (response_text items) = true
  end.

(** A database that knows the Arabic-Indic digits U+0660 to U+0669 as
    decimal digits, as Unicode has them. *)
Definition arabic_indic_db : unicode_db :=
  {| wide_alnum := fun c => in_range c (1632, 1641)%N;
     wide_decimal := fun c => in_range c (1632, 1641)%N;
     wide_upper := fun s => s;
     wide_lower := fun s => s |}.

(** One rule of [sanitize_text] applied to [t]: the text after it. *)
Definition rule_apply (db : unicode_db) (r : regex) (repl t : list N) : list N :=
  if has_match db true r t then re_sub db true r repl t else t.

(** The text after the first, the first two, ... rules of [sanitize_text]. *)
Definition after_ip (db : unicode_db) (t : list N) : list N :=
  rule_apply db ip_pattern (str "[redacted-ip]") t.

Definition after_email (db : unicode_db) (t : list N) : list N :=
  rule_apply db email_pattern (str "[redacted-email]") (after_ip db t).

Definition after_hostname (db : unicode_db) (t : list N) : list N :=
  rule_apply db hostname_pattern (str "[redacted-host]") (after_email db t).

Definition after_id (db : unicode_db) (t : list N) : list N :=
  rule_apply db id_pattern (str "[redacted-id]") (after_hostname db t).

Definition redacted_note (label : list N) : note :=
  {| token := label; action := str "redacted" |}.

Definition removed_note : note :=
  {| token := str "stack-trace-line"; action := str "removed" |}.

(** The note of a rule, if the rule fired. *)
Definition note_if (fired : bool) (label : list N) : list note :=
  if fired then [redacted_note label] else [].

(** The notes that the four rules can add, in the order of the rules, and
    the placeholders that they write. *)
Definition rule_notes : list note :=
  map (fun rule => redacted_note (snd rule)) rules.

Definition placeholders : list (list N) :=
  map (fun rule => snd (fst rule)) rules.

(** A character of the text returned for [t]: one of [t], one of a
    placeholder, or the newline that joins the lines. *)
Definition from_input (t : list N) (c : N) : Prop :=
  In c t \/ (exists p, In p placeholders /\ In c p) \/ c = 10%N.

(** A database for the examples: no code point above U+00FF is classified,
    which is all the examples, whose text is ASCII, ask for. *)
Definition latin_db : unicode_db :=
  {| wide_alnum := fun _ => false;
     wide_decimal := fun _ => false;
     wide_upper := fun s => s;
     wide_lower := fun s => s |}.

(** * Properties *)

(** ** The matcher lists the matches *)

Section MatcherFacts.

Context (db : unicode_db) (ic : bool).

Lemma matches_range s r i j :
  matches db ic s r i j -> i <= j /\ (i = j \/ j <= length s).
Proof.
  induction 1; try lia.
  split; [lia|]. right.
  assert (i < length s) by (apply nth_error_Some; congruence). lia.
Qed.

Lemma matches_le s r i j : matches db ic s r i j -> i <= j.
Proof. intros H. apply matches_range in H. lia. Qed.

Lemma matches_bound s r i j :
  matches db ic s r i j -> i < j -> j <= length s.
Proof. intros H. apply matches_range in H. lia. Qed.

Lemma in_stop (mn i j : nat) :
  In j (match mn with 0 => [i] | S _ => [] end) <-> mn = 0 /\ j = i.
Proof.
  destruct mn; simpl; split.
  - intros [<-|[]]. auto.
  - intros [_ ->]. auto.
  - intros [].
  - intros [H _]. discriminate.
Qed.

Lemma rep_loop_matches s r
  (IH : forall i j, In j (ends db ic s r i) <-> matches db ic s r i j) :
  forall fuel mn mx i j, length s - i <= fuel ->
    (In j (rep_loop (ends db ic s r) fuel mn mx i)
     <-> matches db ic s (Rep r mn mx) i j).
Proof.
  induction fuel as [|f IHf]; intros mn mx i j Hf.
  - assert (E : rep_loop (ends db ic s r) 0 mn mx i
                = match mn with 0 => [i] | S _ => [] end)
      by (destruct mx as [[|?]|]; reflexivity).
    rewrite E, in_stop. split.
    + intros [-> ->]. constructor.
    + inversion 1; subst; [auto|].
      match goal with
      | Hm : matches _ _ _ r i ?k, Hlt : i < ?k |- _ =>
          pose proof (matches_bound _ _ _ _ Hm Hlt); lia
      end.
  - destruct (decide (mx = Some 0)) as [->|Hmx].
    + simpl. rewrite in_stop. split.
      * intros [-> ->]. constructor.
      * inversion 1; subst; [auto|congruence].
    + assert (E : rep_loop (ends db ic s r) (S f) mn mx i
                = flat_map (fun k => if i <? k
                     then rep_loop (ends db ic s r) f (pred mn) (option_map pred mx) k
                     else []) (ends db ic s r i)
                  ++ match mn with 0 => [i] | S _ => [] end).
      { destruct mx as [[|?]|]; [congruence|reflexivity|reflexivity]. }
      rewrite E, in_app_iff, in_flat_map, in_stop. split.
      * intros [(k & Hk & Hj)|[-> ->]]; [|constructor].
        destruct (Nat.ltb_spec i k) as [Hlt|]; [|destruct Hj].
        apply IHf in Hj; [|lia].
        eapply m_rep_step; eauto. now apply IH.
      * inversion 1; subst; [right; auto|]. left.
        match goal with
        | Hm : matches _ _ _ r i ?k |- _ => exists k; split; [now apply IH|]
        end.
        destruct (Nat.ltb_spec i k); [|lia]. apply IHf; [lia|assumption].
Qed.

(** [ends] lists the end positions of the matches, and nothing else. *)
Lemma ends_matches s r :
  forall i j, In j (ends db ic s r i) <-> matches db ic s r i j.
Proof.
  induction r as [|p| |r1 IH1 r2 IH2|r1 IH1 r2 IH2|r IH mn mx]; intros i j; simpl.
  - split; [intros [<-|[]]; constructor|inversion 1; auto].
  - split.
    + destruct (nth_error s i) as [c|] eqn:Hc; [|intros []].
      destruct (accepts db ic p c) eqn:Ha; [|intros []].
      intros [<-|[]]. econstructor; eauto.
    + inversion 1; subst.
      match goal with
      | H1 : nth_error s i = Some _, H2 : accepts _ _ _ _ = true |- _ =>
          rewrite H1, H2; simpl; auto
      end.
  - split.
    + destruct (is_boundary db s i) eqn:Hb; [|intros []].
      intros [<-|[]]. now constructor.
    + inversion 1; subst.
      match goal with H1 : is_boundary _ _ _ = true |- _ => rewrite H1 end.
      simpl; auto.
  - rewrite in_flat_map. split.
    + intros (k & Hk & Hj). econstructor; [apply IH1|apply IH2]; eauto.
    + inversion 1; subst. eexists; split; [apply IH1|apply IH2]; eauto.
  - rewrite in_app_iff. split.
    + intros [H|H]; [apply m_alt_l, IH1|apply m_alt_r, IH2]; assumption.
    + inversion 1; subst; [left; apply IH1|right; apply IH2]; assumption.
  - apply rep_loop_matches; [assumption|lia].
Qed.

Lemma ends_nil_iff s r i :
  ends db ic s r i = [] <-> forall j, ~ matches db ic s r i j.
Proof.
  split.
  - intros E j Hm. apply ends_matches in Hm. rewrite E in Hm. destruct Hm.
  - intros H. destruct (ends db ic s r i) as [|j l] eqn:E; [reflexivity|].
    exfalso. apply (H j), ends_matches. rewrite E. now left.
Qed.

(** Every character of a match is accepted somewhere in the pattern. *)
Lemma matches_alpha s r i j :
  matches db ic s r i j ->
  forall k, i <= k < j ->
    exists c, nth_error s k = Some c /\ alpha db ic r c = true.
Proof.
  induction 1; intros q Hq; simpl; try lia.
  - assert (q = i) by lia. subst. eauto.
  - match goal with
    | H1 : matches _ _ _ r1 i k |- _ => pose proof (matches_le _ _ _ _ H1)
    end.
    destruct (Nat.lt_ge_cases q k).
    + destruct (IHmatches1 q) as (c & ? & Hc); [lia|].
      exists c. rewrite Hc. auto.
    + destruct (IHmatches2 q) as (c & ? & Hc); [lia|].
      exists c. rewrite Hc, orb_true_r. auto.
  - destruct (IHmatches q) as (c & ? & Hc); [lia|]. exists c. rewrite Hc. auto.
  - destruct (IHmatches q) as (c & ? & Hc); [lia|].
    exists c. rewrite Hc, orb_true_r. auto.
  - destruct (Nat.lt_ge_cases q k).
    + apply IHmatches1. lia.
    + apply IHmatches2. lia.
Qed.

(** A match is at least [minlen r] characters long. *)
Lemma matches_minlen s r i j :
  matches db ic s r i j -> i + minlen r <= j.
Proof.
  induction 1; simpl in *; try lia.
  destruct mn; simpl in *; lia.
Qed.

End MatcherFacts.

(** ** Searching *)

Section SearchFacts.

Context (db : unicode_db) (ic : bool).

Lemma search_from_some s r fuel pos i j :
  search_from db ic s r fuel pos = Some (i, j) ->
  pos <= i < pos + fuel /\ matches db ic s r i j /\
  forall x y, pos <= x < i -> ~ matches db ic s r x y.
Proof.
  revert pos. induction fuel as [|f IH]; intros pos; simpl; [discriminate|].
  destruct (ends db ic s r pos) as [|j0 l] eqn:E.
  - intros H. apply IH in H as (Hi & Hm & Hno).
    split; [lia|]. split; [assumption|].
    intros x y Hx. destruct (Nat.eq_dec x pos) as [->|].
    + now apply ends_nil_iff.
    + apply Hno. lia.
  - intros [= <- <-]. split; [lia|]. split.
    + apply ends_matches. rewrite E. now left.
    + intros x y Hx. lia.
Qed.

Lemma search_from_none s r fuel pos :
  search_from db ic s r fuel pos = None ->
  forall x y, pos <= x < pos + fuel -> ~ matches db ic s r x y.
Proof.
  revert pos. induction fuel as [|f IH]; intros pos; simpl; [intros; lia|].
  destruct (ends db ic s r pos) as [|j0 l] eqn:E; [|discriminate].
  intros H x y Hx. destruct (Nat.eq_dec x pos) as [->|].
  - now apply ends_nil_iff.
  - apply (IH _ H). lia.
Qed.

Lemma search_at_some s r pos i j :
  search_at db ic s r pos = Some (i, j) ->
  pos <= i <= length s /\ matches db ic s r i j /\
  forall x y, pos <= x < i -> ~ matches db ic s r x y.
Proof.
  unfold search_at. intros H. apply search_from_some in H as (Hi & Hm & Hno).
  split; [lia|]. auto.
Qed.

Lemma search_at_none s r pos :
  search_at db ic s r pos = None ->
  forall x y, pos <= x <= length s -> ~ matches db ic s r x y.
Proof.
  unfold search_at. intros H x y Hx. apply (search_from_none _ _ _ _ H). lia.
Qed.

(** [re.search] finds a match exactly when there is one. *)
Lemma has_match_false s r :
  1 <= minlen r ->
  (has_match db ic r s = false <-> clean db ic r s).
Proof.
  intros Hlen. unfold has_match, re_search. split.
  - destruct (search_at db ic s r 0) eqn:E; [discriminate|]. intros _ i j Hm.
    pose proof (matches_minlen _ _ _ _ _ _ Hm).
    pose proof (matches_bound _ _ _ _ _ _ Hm ltac:(lia)).
    apply (search_at_none _ _ _ E i j); [lia|assumption].
  - intros Hc. destruct (search_at db ic s r 0) as [[i j]|] eqn:E; [|reflexivity].
    apply search_at_some in E as (_ & Hm & _). now apply Hc in Hm.
Qed.

Lemma has_match_true s r i j :
  matches db ic s r i j -> 1 <= minlen r -> has_match db ic r s = true.
Proof.
  intros Hm Hlen. destruct (has_match db ic r s) eqn:E; [reflexivity|].
  apply has_match_false in E; [|assumption]. now apply E in Hm.
Qed.

End SearchFacts.

(** ** Moving a match between strings

    A match only reads the characters it covers and, where the pattern has
    a [\b], the word boundaries at the positions it covers. *)

Section Locality.

Context (db : unicode_db) (ic : bool).

Lemma is_boundary_ext s s' i i' :
  prev_char s' i' = prev_char s i -> nth_error s' i' = nth_error s i ->
  is_boundary db s' i' = is_boundary db s i.
Proof. unfold is_boundary. now intros -> ->. Qed.

Lemma nth_error_app_shift (p l : list N) k :
  nth_error (p ++ l) (length p + k) = nth_error l k.
Proof. rewrite nth_error_app2 by lia. f_equal. lia. Qed.

Lemma matches_transfer s' s a' a n r x y :
  matches db ic s' r x y ->
  (forall u, u < n -> nth_error s' (a' + u) = nth_error s (a + u)) ->
  (wordb_free r = false -> forall u, u <= n ->
     is_boundary db s' (a' + u) = true -> is_boundary db s (a + u) = true) ->
  a' <= x -> y <= a' + n ->
  matches db ic s r (a + (x - a')) (a + (y - a')).
Proof.
  intros Hm Hc. induction Hm; intros Hb Hx Hy; simpl in Hb.
  - constructor.
  - replace (a + (S i - a')) with (S (a + (i - a'))) by lia.
    econstructor; [|eassumption].
    rewrite <- Hc by lia. replace (a' + (i - a')) with i by lia. assumption.
  - constructor. apply Hb; [reflexivity|lia|].
    replace (a' + (i - a')) with i by lia. assumption.
  - pose proof (matches_le _ _ _ _ _ _ Hm1).
    pose proof (matches_le _ _ _ _ _ _ Hm2).
    econstructor.
    + apply IHHm1; [|lia|lia]. intros E. apply Hb. now rewrite E.
    + apply IHHm2; [|lia|lia]. intros E. apply Hb. now rewrite E, andb_false_r.
  - apply m_alt_l, IHHm; [|lia|lia]. intros E. apply Hb. now rewrite E.
  - apply m_alt_r, IHHm; [|lia|lia]. intros E. apply Hb. now rewrite E, andb_false_r.
  - constructor.
  - pose proof (matches_le _ _ _ _ _ _ Hm1).
    pose proof (matches_le _ _ _ _ _ _ Hm2).
    eapply m_rep_step with (k := a + (k - a')).
    + assumption.
    + apply IHHm1; [assumption|lia|lia].
    + lia.
    + apply IHHm2; [assumption|lia|lia].
Qed.

(** A character that the pattern cannot read separates the matches on its
    two sides. *)
Lemma clean_glue r (p q : list N) c :
  1 <= minlen r -> alpha db ic r c = false ->
  clean db ic r (p ++ [c]) -> clean db ic r (c :: q) ->
  clean db ic r (p ++ c :: q).
Proof.
  intros Hlen Hc Hp Hq x y Hm.
  pose proof (matches_minlen _ _ _ _ _ _ Hm) as Hxy.
  assert (Hout : y <= length p \/ length p < x).
  { destruct (Nat.le_gt_cases y (length p)); [auto|].
    destruct (Nat.lt_ge_cases (length p) x); [auto|]. exfalso.
    destruct (matches_alpha _ _ _ _ _ _ Hm (length p)) as (c' & Hn & Ha); [lia|].
    rewrite nth_error_app2 in Hn by lia. rewrite Nat.sub_diag in Hn.
    injection Hn as <-. congruence. }
  destruct Hout as [Hy|Hx].
  - apply (Hp x y).
    replace x with (0 + (x - 0)) at 1 by lia.
    replace y with (0 + (y - 0)) at 1 by lia.
    apply matches_transfer with (s' := p ++ c :: q) (n := length p);
      [assumption| | |lia|lia].
    + intros u Hu. simpl. now rewrite !nth_error_app1 by lia.
    + intros _ u Hu. simpl. intros <-. apply is_boundary_ext.
      * destruct u as [|u]; [reflexivity|]. simpl.
        now rewrite !nth_error_app1 by lia.
      * destruct (Nat.eq_dec u (length p)) as [->|].
        -- rewrite !nth_error_app2 by lia. now rewrite Nat.sub_diag.
        -- now rewrite !nth_error_app1 by lia.
  - apply (Hq (x - length p) (y - length p)).
    replace (x - length p) with (1 + (x - S (length p))) by lia.
    replace (y - length p) with (1 + (y - S (length p))) by lia.
    apply matches_transfer with (s' := p ++ c :: q) (n := length q);
      [assumption| | |lia|].
    + intros u Hu.
      replace (S (length p) + u) with (length p + S u) by lia.
      now rewrite nth_error_app_shift.
    + intros _ u Hu.
      replace (S (length p) + u) with (length p + S u) by lia.
      intros <-. apply is_boundary_ext.
      * simpl. replace (length p + S u) with (S (length p + u)) by lia.
        simpl. now rewrite nth_error_app_shift.
      * now rewrite nth_error_app_shift.
    + pose proof (matches_bound _ _ _ _ _ _ Hm ltac:(lia)) as Hb.
      rewrite length_app in Hb. simpl in Hb. lia.
Qed.

End Locality.

(** ** A part of a string between characters the pattern cannot read *)

Section Surroundings.

Context (db : unicode_db) (ic : bool).

Lemma length_slice (s : list N) a b :
  a <= b <= length s -> length (slice s a b) = b - a.
Proof. intros H. unfold slice. rewrite length_firstn, length_skipn. lia. Qed.

Lemma nth_error_slice (s : list N) a b u :
  u < b - a -> nth_error (slice s a b) u = nth_error s (a + u).
Proof.
  intros H. unfold slice. rewrite nth_error_firstn.
  destruct (Nat.ltb_spec u (b - a)); [|lia]. apply nth_error_skipn.
Qed.

Lemma slice_to_end (s : list N) a :
  a <= length s -> skipn a s = slice s a (length s).
Proof.
  intros H. unfold slice. symmetry. apply firstn_all2.
  rewrite length_skipn. lia.
Qed.

Lemma clean_barriers r (l : list N) :
  1 <= minlen r -> Forall (barrier db ic r) l -> clean db ic r l.
Proof.
  intros Hlen Hl x y Hm.
  pose proof (matches_minlen _ _ _ _ _ _ Hm).
  destruct (matches_alpha _ _ _ _ _ _ Hm x) as (c & Hn & Ha); [lia|].
  apply nth_error_In in Hn. rewrite List.Forall_forall in Hl.
  destruct (Hl c Hn). congruence.
Qed.

(** The part [s[a:b]] put between characters that [r] cannot read has no
    match of [r] if no match of [r] starts in that part of [s]; where [r]
    has a [\b], the ends of the part must be word boundaries of [s] already,
    or have no word character outside. *)
Lemma clean_ctx r s a b (lb rb : list N) :
  1 <= minlen r -> a <= b <= length s ->
  Forall (barrier db ic r) lb -> Forall (barrier db ic r) rb ->
  (a < b -> wordb_free r = true \/ is_boundary db s a = true
            \/ word_opt db (prev_char s a) = false) ->
  (a < b -> wordb_free r = true \/ is_boundary db s b = true
            \/ word_opt db (nth_error s b) = false) ->
  (forall x y, a <= x < b -> ~ matches db ic s r x y) ->
  clean db ic r (lb ++ slice s a b ++ rb).
Proof.
  intros Hlen Hab Hlb Hrb Hleft Hright Hno x y Hm.
  set (L := length lb). set (n := b - a).
  pose proof (length_slice s a b Hab) as Hls.
  pose proof (matches_minlen _ _ _ _ _ _ Hm) as Hxy.
  rewrite List.Forall_forall in Hlb, Hrb.
  assert (HL : L <= x).
  { destruct (Nat.le_gt_cases L x); [assumption|]. exfalso.
    destruct (matches_alpha _ _ _ _ _ _ Hm x) as (c & Hn & Ha); [lia|].
    rewrite nth_error_app1 in Hn by (fold L; lia).
    apply nth_error_In in Hn. destruct (Hlb c Hn). congruence. }
  assert (HR : y <= L + n).
  { destruct (Nat.le_gt_cases y (L + n)); [assumption|]. exfalso.
    destruct (matches_alpha _ _ _ _ _ _ Hm (Nat.max x (L + n)))
      as (c & Hn & Ha); [lia|].
    rewrite nth_error_app2 in Hn by (fold L; lia).
    rewrite nth_error_app2 in Hn by (fold L; lia).
    apply nth_error_In in Hn. destruct (Hrb c Hn). congruence. }
  assert (Hn : 0 < n) by lia.
  assert (Hchar : forall u, u < n ->
            nth_error (lb ++ slice s a b ++ rb) (L + u) = nth_error s (a + u)).
  { intros u Hu. unfold L. rewrite nth_error_app_shift.
    rewrite nth_error_app1 by lia. apply nth_error_slice. fold n. lia. }
  apply (Hno (a + (x - L)) (a + (y - L))); [lia|].
  apply matches_transfer with (s' := lb ++ slice s a b ++ rb) (n := n);
    [assumption|exact Hchar| |assumption|assumption].
  intros Hwf u Hu Hbnd.
  assert (Hprev0 : word_opt db (prev_char (lb ++ slice s a b ++ rb) L) = false).
  { unfold L. destruct (length lb) as [|k] eqn:Ek; [reflexivity|]. simpl.
    destruct (nth_error (lb ++ slice s a b ++ rb) k) as [c|] eqn:Hk; [|reflexivity].
    rewrite nth_error_app1 in Hk by lia.
    apply nth_error_In in Hk. simpl. now destruct (Hlb c Hk). }
  assert (Hnext : word_opt db (nth_error (lb ++ slice s a b ++ rb) (L + n)) = false).
  { unfold L. rewrite nth_error_app_shift.
    rewrite nth_error_app2 by lia. rewrite Hls. fold n. rewrite Nat.sub_diag.
    destruct rb as [|c rb']; [reflexivity|]. simpl.
    apply (Hrb c). now left. }
  destruct (Nat.eq_dec u 0) as [->|Hu0].
  - rewrite Nat.add_0_r in *.
    destruct Hleft as [E|[E|E]]; [lia|congruence|assumption|].
    unfold is_boundary in *. rewrite E. rewrite Hprev0 in Hbnd.
    rewrite <- (Nat.add_0_r L), Hchar in Hbnd by lia.
    now rewrite Nat.add_0_r in Hbnd.
  - assert (Hp : prev_char (lb ++ slice s a b ++ rb) (L + u) = prev_char s (a + u)).
    { replace (L + u) with (S (L + (u - 1))) by lia.
      replace (a + u) with (S (a + (u - 1))) by lia. simpl. apply Hchar. lia. }
    destruct (Nat.eq_dec u n) as [->|Hun].
    + destruct Hright as [E|[E|E]]; [lia|congruence| |].
      * replace (a + n) with b by lia. assumption.
      * unfold is_boundary in *. rewrite Hnext in Hbnd. rewrite <- Hp.
        replace (a + n) with b by lia. now rewrite E.
    + rewrite <- Hbnd. symmetry. apply is_boundary_ext; [assumption|].
      apply Hchar. lia.
Qed.

End Surroundings.

(** ** Substitution *)

Section SubFacts.

Context (db : unicode_db) (ic : bool).

Lemma re_sub_no_match r repl s :
  has_match db ic r s = false -> re_sub db ic r repl s = s.
Proof.
  unfold has_match, re_search, re_sub. simpl.
  now destruct (search_at db ic s r 0).
Qed.

(** What [re.sub] writes comes from the text or from the replacement. *)
Lemma sub_from_Forall (P : N -> Prop) r repl s :
  Forall P s -> Forall P repl ->
  forall fuel pos, Forall P (sub_from db ic r repl s fuel pos).
Proof.
  intros Hs Hr. induction fuel as [|f IH]; intros pos; simpl.
  - now apply Forall_drop.
  - destruct (search_at db ic s r pos) as [[i j]|]; [|now apply Forall_drop].
    unfold slice. repeat (apply Forall_app; split); try assumption.
    + now apply Forall_take, Forall_drop.
    + destruct (i <? j); [apply IH|].
      apply Forall_app; split; [|apply IH].
      now apply Forall_take, Forall_drop.
Qed.

Lemma re_sub_Forall (P : N -> Prop) r repl s :
  Forall P s -> Forall P repl -> Forall P (re_sub db ic r repl s).
Proof. intros. now apply sub_from_Forall. Qed.

Lemma matches_starts_wordb s r i j :
  starts_with_wordb r = true -> matches db ic s r i j ->
  is_boundary db s i = true.
Proof.
  revert i j. induction r; simpl; try discriminate; intros i j Hs Hm.
  - now inversion Hm.
  - inversion Hm; subst. eauto.
Qed.

Lemma matches_ends_wordb s r i j :
  ends_with_wordb r = true -> matches db ic s r i j ->
  is_boundary db s j = true.
Proof.
  revert i j. induction r; simpl; try discriminate; intros i j Hs Hm.
  - now inversion Hm.
  - inversion Hm; subst. eauto.
Qed.

Lemma sub_from_S r repl s f pos :
  sub_from db ic r repl s (S f) pos =
  match search_at db ic s r pos with
  | None => skipn pos s
  | Some (i, j) =>
      slice s pos i ++ repl ++
      (if i <? j then sub_from db ic r repl s f j
       else slice s i (S i) ++ sub_from db ic r repl s f (S i))
  end.
Proof. reflexivity. Qed.

Lemma clean_glue2 r (p q inner : list N) o c' :
  1 <= minlen r -> alpha db ic r o = false -> alpha db ic r c' = false ->
  clean db ic r (p ++ [o]) -> clean db ic r (o :: inner ++ [c']) ->
  clean db ic r (c' :: q) ->
  clean db ic r (p ++ (o :: inner ++ [c']) ++ q).
Proof.
  intros Hlen Ho Hc Hp HR Hq.
  replace (p ++ (o :: inner ++ [c']) ++ q)
    with (p ++ o :: (inner ++ c' :: q))
    by (simpl; now rewrite <- List.app_assoc).
  apply clean_glue; [assumption|assumption|assumption|].
  change (clean db ic r ((o :: inner) ++ c' :: q)).
  now apply clean_glue.
Qed.

(** The matches of [r'] in [s] are replaced by [o :: inner ++ [c']], whose
    two end characters [r] cannot read.  If every match of [r] in [s] starts
    where a match of [r'] starts, the result has no match of [r]. *)
Lemma sub_from_clean r r' (o c' : N) inner s :
  1 <= minlen r -> 1 <= minlen r' ->
  barrier db ic r o -> barrier db ic r c' ->
  clean db ic r (o :: inner ++ [c']) ->
  (wordb_free r = true \/
   forall i j, matches db ic s r' i j ->
     is_boundary db s i = true /\ is_boundary db s j = true) ->
  (forall x y, matches db ic s r x y -> exists y', matches db ic s r' x y') ->
  forall fuel pos lb, pos <= length s -> length s < pos + fuel ->
    Forall (barrier db ic r) lb ->
    (wordb_free r = true \/ is_boundary db s pos = true
     \/ word_opt db (prev_char s pos) = false) ->
    clean db ic r (lb ++ sub_from db ic r' (o :: inner ++ [c']) s fuel pos).
Proof.
  intros Hlen Hlen' Ho Hc HR Hedge Hcover.
  induction fuel as [|f IH]; intros pos lb Hpos Hfuel Hlb Hleft; [lia|].
  rewrite sub_from_S. destruct (search_at db ic s r' pos) as [[i j]|] eqn:E.
  - apply search_at_some in E as (Hi & Hm & Hno).
    pose proof (matches_minlen _ _ _ _ _ _ Hm) as Hij.
    pose proof (matches_bound _ _ _ _ _ _ Hm ltac:(lia)) as Hj.
    destruct (Nat.ltb_spec i j) as [_|]; [|lia].
    rewrite List.app_assoc.
    apply clean_glue2; [assumption|apply Ho|apply Hc| |exact HR|].
    + rewrite <- List.app_assoc.
      apply clean_ctx; try assumption; try lia.
      * repeat constructor; apply Ho.
      * intros _. auto.
      * intros _. destruct Hedge as [|Hedge]; [auto|].
        right; left. now apply (Hedge i j).
      * intros x y Hx Hr. destruct (Hcover x y Hr) as (y' & Hr').
        now apply (Hno x y').
    + apply (IH j [c']); [lia|lia|repeat constructor; apply Hc|].
      destruct Hedge as [|Hedge]; [auto|].
      right; left. now apply (Hedge i j).
  - rewrite slice_to_end by assumption.
    rewrite <- (app_nil_r (slice s pos (length s))).
    apply clean_ctx; try assumption; try lia; [constructor|auto| |].
    + intros _. right; right.
      assert (E0 : nth_error s (length s) = None) by (apply nth_error_None; lia).
      now rewrite E0.
    + intros x y Hx Hr. destruct (Hcover x y Hr) as (y' & Hr').
      apply (search_at_none _ _ _ _ _ E x y'); [lia|assumption].
Qed.

Lemma re_sub_clean r r' (o c' : N) inner s :
  1 <= minlen r -> 1 <= minlen r' ->
  barrier db ic r o -> barrier db ic r c' ->
  clean db ic r (o :: inner ++ [c']) ->
  (wordb_free r = true \/
   forall i j, matches db ic s r' i j ->
     is_boundary db s i = true /\ is_boundary db s j = true) ->
  (forall x y, matches db ic s r x y -> exists y', matches db ic s r' x y') ->
  clean db ic r (re_sub db ic r' (o :: inner ++ [c']) s).
Proof.
  intros. unfold re_sub.
  change (clean db ic r
            ([] ++ sub_from db ic r' (o :: inner ++ [c']) s (S (length s)) 0)).
  apply sub_from_clean; try assumption; try lia; [constructor|].
  right; right. reflexivity.
Qed.

End SubFacts.

(** ** The rules of [sanitize_text], one at a time *)

Section Rules.

Context (db : unicode_db).

(** After a rule for [r'] with a replacement in brackets, the text has no
    match of [r], if every match of [r] started where a match of [r']
    starts. *)
Lemma rule_apply_clean r r' (o c' : N) inner t :
  1 <= minlen r -> 1 <= minlen r' ->
  barrier db true r o -> barrier db true r c' ->
  clean db true r (o :: inner ++ [c']) ->
  (wordb_free r = true \/
   (starts_with_wordb r' = true /\ ends_with_wordb r' = true)) ->
  (forall x y, matches db true t r x y -> exists y', matches db true t r' x y') ->
  clean db true r (rule_apply db r' (o :: inner ++ [c']) t).
Proof.
  intros Hlen Hlen' Ho Hc HR Hedge Hcover. unfold rule_apply.
  destruct (has_match db true r' t) eqn:E.
  - apply re_sub_clean; try assumption.
    destruct Hedge as [|[Hs He]]; [auto|]. right. intros i j Hm. split.
    + eapply matches_starts_wordb; eauto.
    + eapply matches_ends_wordb; eauto.
  - apply has_match_false in E; [|assumption].
    intros x y Hm. destruct (Hcover x y Hm) as (y' & Hm'). now apply E in Hm'.
Qed.

Lemma rule_apply_keeps r r' (o c' : N) inner t :
  1 <= minlen r -> 1 <= minlen r' ->
  barrier db true r o -> barrier db true r c' ->
  clean db true r (o :: inner ++ [c']) ->
  (wordb_free r = true \/
   (starts_with_wordb r' = true /\ ends_with_wordb r' = true)) ->
  clean db true r t ->
  clean db true r (rule_apply db r' (o :: inner ++ [c']) t).
Proof.
  intros Hlen Hlen' Ho Hc HR Hedge Ht.
  apply rule_apply_clean; try assumption.
  intros x y Hm. now apply Ht in Hm.
Qed.

Ltac bracketed tok inner :=
  change (str tok) with (91%N :: str inner ++ [93%N]).

Ltac pattern_facts :=
  match goal with
  | |- 1 <= minlen _ => cbv; lia
  | |- barrier _ _ _ _ => split; vm_compute; reflexivity
  | |- clean _ _ _ (_ :: _) =>
      apply has_match_false; [cbv; lia|vm_compute; reflexivity]
  | |- wordb_free _ = true \/ _ =>
      first [left; reflexivity | right; split; reflexivity]
  end.

Lemma ip_own t : clean db true ip_pattern (after_ip db t).
Proof.
  unfold after_ip. bracketed "[redacted-ip]" "redacted-ip".
  apply rule_apply_clean; try pattern_facts. eauto.
Qed.

Lemma email_own t : clean db true email_pattern (after_email db t).
Proof.
  unfold after_email. bracketed "[redacted-email]" "redacted-email".
  apply rule_apply_clean; try pattern_facts. eauto.
Qed.

Lemma hostname_own t : clean db true hostname_pattern (after_hostname db t).
Proof.
  unfold after_hostname. bracketed "[redacted-host]" "redacted-host".
  apply rule_apply_clean; try pattern_facts. eauto.
Qed.

Lemma id_own t : clean db true id_pattern (after_id db t).
Proof.
  unfold after_id. bracketed "[redacted-id]" "redacted-id".
  apply rule_apply_clean; try pattern_facts. eauto.
Qed.

Lemma email_after_hostname t :
  clean db true email_pattern (after_hostname db t).
Proof.
  unfold after_hostname. bracketed "[redacted-host]" "redacted-host".
  apply rule_apply_keeps; try pattern_facts. apply email_own.
Qed.

Lemma email_after_id t : clean db true email_pattern (after_id db t).
Proof.
  unfold after_id. bracketed "[redacted-id]" "redacted-id".
  apply rule_apply_keeps; try pattern_facts. apply email_after_hostname.
Qed.

Lemma hostname_after_id t : clean db true hostname_pattern (after_id db t).
Proof.
  unfold after_id. bracketed "[redacted-id]" "redacted-id".
  apply rule_apply_keeps; try pattern_facts. apply hostname_own.
Qed.

End Rules.

(** ** An IPv4-shaped match is a hostname-shaped match *)

Section Runs.

Context (db : unicode_db) (ic : bool).

Lemma inv_seq s r1 r2 i j :
  matches db ic s (Seq r1 r2) i j ->
  exists k, matches db ic s r1 i k /\ matches db ic s r2 k j.
Proof. inversion 1; subst; eauto. Qed.

Lemma inv_wordb s i j :
  matches db ic s WordB i j -> j = i /\ is_boundary db s i = true.
Proof. inversion 1; subst; auto. Qed.

Lemma inv_rep_S s r n mx i j :
  matches db ic s (Rep r (S n) mx) i j ->
  exists k, matches db ic s r i k /\ i < k /\
            matches db ic s (Rep r n (option_map pred mx)) k j.
Proof. inversion 1; subst; eauto. Qed.

Lemma inv_rep_none s r mn i j :
  matches db ic s (Rep r mn (Some 0)) i j -> j = i.
Proof. inversion 1; subst; congruence. Qed.

(** A run of characters of a class matches the class repeated. *)
Lemma class_run s p d : forall i mn,
  mn <= d ->
  (forall k, i <= k < i + d ->
     exists c, nth_error s k = Some c /\ accepts db ic p c = true) ->
  matches db ic s (Rep (Sym p) mn None) i (i + d).
Proof.
  induction d as [|d IH]; intros i mn Hmn Hrun.
  - assert (mn = 0) as -> by lia. rewrite Nat.add_0_r. constructor.
  - destruct (Hrun i) as (c & Hc & Ha); [lia|].
    apply m_rep_step with (k := S i); [discriminate| |lia|].
    + econstructor; eauto.
    + replace (i + S d) with (S i + d) by lia.
      apply IH; [lia|]. intros k Hk. apply Hrun. lia.
Qed.

Lemma rep_more s r mn i k j :
  mn <= 1 -> matches db ic s r i k -> i < k ->
  matches db ic s (Rep r 0 None) k j ->
  matches db ic s (Rep r mn None) i j.
Proof.
  intros Hmn Hr Hlt Hrest.
  apply m_rep_step with (k := k); [discriminate|assumption|assumption|].
  destruct mn as [|[|?]]; [assumption|assumption|lia].
Qed.

End Runs.

Section IpRules.

Context (db : unicode_db).

Lemma ascii_digits_nth s k c :
  ascii_digits db s = true -> nth_error s k = Some c ->
  is_digit db c = true -> in_range c (48, 57)%N = true.
Proof.
  unfold ascii_digits. rewrite forallb_forall. intros H Hn Hd.
  apply nth_error_In in Hn. specialize (H c Hn). now rewrite Hd in H.
Qed.

(** A group of ASCII digits is a hostname label. *)
Lemma digits_label s mx i j :
  ascii_digits db s = true ->
  matches db true s (Rep (Sym CDigit) 1 mx) i j ->
  matches db true s host_label i j.
Proof.
  intros Had Hm.
  pose proof (matches_minlen _ _ _ _ _ _ Hm) as Hlen. simpl in Hlen.
  replace j with (i + (j - i)) by lia.
  apply class_run; [lia|]. intros k Hk.
  destruct (matches_alpha _ _ _ _ _ _ Hm k) as (c & Hc & Ha); [lia|].
  exists c. split; [assumption|]. simpl in Ha.
  pose proof (ascii_digits_nth _ _ _ Had Hc Ha) as Hr.
  unfold accepts, in_ranges. cbn [existsb].
  change (rng "0" "9") with (48%N, 57%N). rewrite Hr.
  now rewrite !orb_true_r.
Qed.

Lemma ip_is_hostname s x y :
  ascii_digits db s = true ->
  matches db true s ip_pattern x y ->
  matches db true s hostname_pattern x y.
Proof.
  intros Had Hm. unfold ip_pattern in Hm. cbn [cat] in Hm.
  apply inv_seq in Hm as (k0 & Hb0 & Hm). apply inv_wordb in Hb0 as [-> Hbx].
  apply inv_seq in Hm as (k1 & Hg & Hm).
  apply inv_seq in Hm as (k2 & Hd4 & Hb). apply inv_wordb in Hb as [-> Hby].
  apply inv_rep_S in Hg as (a1 & Hg1 & _ & Hg). cbn [option_map pred] in Hg.
  apply inv_rep_S in Hg as (a2 & Hg2 & _ & Hg). cbn [option_map pred] in Hg.
  apply inv_rep_S in Hg as (a3 & Hg3 & _ & Hg). cbn [option_map pred] in Hg.
  apply inv_rep_none in Hg as ->.
  apply inv_seq in Hg1 as (m1 & Hd1 & Hdot1).
  apply inv_seq in Hg2 as (m2 & Hd2 & Hdot2).
  apply inv_seq in Hg3 as (m3 & Hd3 & Hdot3).
  pose proof (matches_minlen _ _ _ _ _ _ Hdot1) as L1.
  pose proof (matches_minlen _ _ _ _ _ _ Hdot2) as L2.
  pose proof (matches_minlen _ _ _ _ _ _ Hdot3) as L3.
  pose proof (matches_le _ _ _ _ _ _ Hd2) as L4.
  pose proof (matches_le _ _ _ _ _ _ Hd3) as L5.
  pose proof (matches_le _ _ _ _ _ _ Hd4) as L6.
  simpl in L1, L2, L3.
  apply (digits_label _ _ _ _ Had) in Hd1, Hd2, Hd3, Hd4.
  unfold hostname_pattern. cbn [cat].
  apply m_seq with (k := x); [now constructor|].
  apply m_seq with (k := m1); [assumption|].
  apply m_seq with (k := k2); [|now constructor].
  apply rep_more with (k := m2); [lia|econstructor; eassumption|lia|].
  apply rep_more with (k := m3); [lia|econstructor; eassumption|lia|].
  apply rep_more with (k := k2); [lia|econstructor; eassumption|lia|].
  constructor.
Qed.

(** The replacement tokens have no decimal digit, so the digits of the
    text stay the ASCII ones along the rules. *)
Lemma rule_apply_ascii_digits r repl t :
  ascii_digits db repl = true -> ascii_digits db t = true ->
  ascii_digits db (rule_apply db r repl t) = true.
Proof.
  unfold rule_apply, ascii_digits. intros Hr Ht.
  destruct (has_match db true r t); [|assumption].
  rewrite forallb_forall in *. apply List.Forall_forall.
  apply re_sub_Forall; now apply List.Forall_forall.
Qed.

Lemma ip_after_hostname t :
  ascii_digits db t = true -> clean db true ip_pattern (after_hostname db t).
Proof.
  intros Had. unfold after_hostname.
  change (str "[redacted-host]") with (91%N :: str "redacted-host" ++ [93%N]).
  apply rule_apply_clean.
  - cbv; lia.
  - cbv; lia.
  - split; vm_compute; reflexivity.
  - split; vm_compute; reflexivity.
  - apply has_match_false; [cbv; lia|vm_compute; reflexivity].
  - right; split; reflexivity.
  - intros x y Hm. exists y. apply ip_is_hostname; [|assumption].
    unfold after_email, after_ip.
    repeat apply rule_apply_ascii_digits; try assumption; reflexivity.
Qed.

Lemma ip_after_id t :
  ascii_digits db t = true -> clean db true ip_pattern (after_id db t).
Proof.
  intros Had. unfold after_id.
  change (str "[redacted-id]") with (91%N :: str "redacted-id" ++ [93%N]).
  apply rule_apply_keeps.
  - cbv; lia.
  - cbv; lia.
  - split; vm_compute; reflexivity.
  - split; vm_compute; reflexivity.
  - apply has_match_false; [cbv; lia|vm_compute; reflexivity].
  - right; split; reflexivity.
  - now apply ip_after_hostname.
Qed.

End IpRules.

(** ** The two loops of [sanitize_text] *)

Section Loops.

Context (db : unicode_db).

Lemma apply_rule_eq t ns r repl label :
  apply_rule db (t, ns) (r, repl, label) =
  (rule_apply db r repl t, ns ++ note_if (has_match db true r t) label).
Proof.
  unfold apply_rule, rule_apply, note_if, redacted_note.
  destruct (has_match db true r t); [reflexivity|now rewrite app_nil_r].
Qed.

(** The loop over [rules]: the text after the four rules, and one note for
    each rule that found a match in the text it was given. *)
Lemma redact_eq t :
  redact db t =
  (after_id db t,
   note_if (has_match db true ip_pattern t) (str "ip")
   ++ note_if (has_match db true email_pattern (after_ip db t)) (str "email")
   ++ note_if (has_match db true hostname_pattern (after_email db t))
        (str "hostname")
   ++ note_if (has_match db true id_pattern (after_hostname db t))
        (str "internal-id")).
Proof.
  unfold redact, rules. cbn [fold_left]. rewrite !apply_rule_eq.
  unfold after_id, after_hostname, after_email, after_ip.
  now rewrite <- !List.app_assoc.
Qed.

(** The loop over the lines keeps the lines that do not match, in their
    order, and adds one note for each line that matches. *)
Lemma filter_lines_eq lines : forall acc ns,
  fold_left (filter_line db) lines (acc, ns) =
  (acc ++ List.filter (fun l => negb (is_stack_line db l)) lines,
   ns ++ map (fun _ => removed_note) (List.filter (is_stack_line db) lines)).
Proof.
  induction lines as [|l ls IH]; intros acc ns; simpl.
  - now rewrite !app_nil_r.
  - unfold is_stack_line in *. destruct (has_match db false stack_pattern l); simpl.
    + rewrite IH. now rewrite <- List.app_assoc.
    + rewrite IH. now rewrite <- List.app_assoc.
Qed.

Lemma sanitize_text_eq t :
  sanitize_text db t =
  {| text := join newline
       (List.filter (fun l => negb (is_stack_line db l))
          (splitlines (after_id db t)));
     notes := snd (redact db t)
       ++ map (fun _ => removed_note)
            (List.filter (is_stack_line db) (splitlines (after_id db t))) |}.
Proof.
  unfold sanitize_text. rewrite redact_eq. cbn [snd].
  rewrite filter_lines_eq. reflexivity.
Qed.

End Loops.

(** ** The lines of a text *)

Section Lines.

Context (db : unicode_db).

Lemma line_at_cons c u a b :
  line_at u a b -> (a = 0 -> is_linebreak c = true) ->
  line_at (c :: u) (S a) (S b).
Proof.
  intros (Hab & Hp & Hn) Hc. split; [simpl; lia|]. split; [|exact Hn].
  destruct a as [|a]; [simpl; now apply Hc|exact Hp].
Qed.

Lemma slice_cons c (u : list N) a b : slice (c :: u) (S a) (S b) = slice u a b.
Proof. reflexivity. Qed.

Lemma splitlines_nil s : splitlines s = [] -> s = [].
Proof.
  destruct s as [|c rest]; [reflexivity|]. simpl.
  destruct (is_linebreak c); [discriminate|].
  destruct (splitlines rest); discriminate.
Qed.

Lemma lines_of_all s lines l :
  lines_of s lines -> In l lines ->
  exists a b, l = slice s a b /\ line_at s a b.
Proof.
  destruct lines as [|l0 ls]; [intros _ []|].
  intros [(b & E & H) Hrest] [<-|Hin]; [eauto|].
  rewrite List.Forall_forall in Hrest.
  destruct (Hrest l Hin) as (a & b' & ? & ?). eauto.
Qed.

(** The lines after a line break [c] at the head. *)
Lemma lines_after_break c u lines :
  is_linebreak c = true -> lines_of u lines ->
  Forall (fun l' => exists a b, l' = slice (c :: u) (S a) b
                               /\ line_at (c :: u) (S a) b) lines.
Proof.
  intros Hc Hl. apply List.Forall_forall. intros l Hin.
  destruct (lines_of_all _ _ _ Hl Hin) as (a & b & -> & Hat).
  exists a, (S b). split; [reflexivity|]. now apply line_at_cons.
Qed.

Lemma splitlines_lines_of n : forall s,
  length s <= n -> lines_of s (splitlines s).
Proof.
  induction n as [|n IH]; intros s Hn.
  - destruct s; [exact I|simpl in Hn; lia].
  - destruct s as [|c rest]; [exact I|]. simpl in Hn. simpl.
    destruct (is_linebreak c) eqn:Hc.
    + split.
      * exists 0. split; [reflexivity|]. split; [simpl; lia|].
        split; [exact I|]. simpl. exact Hc.
      * destruct rest as [|c' rest']; [constructor|].
        destruct ((c =? 13)%N && (c' =? 10)%N) eqn:Hcr.
        -- assert (Hc' : is_linebreak c' = true).
           { apply andb_true_iff in Hcr as [_ E].
             apply N.eqb_eq in E. now subst. }
           assert (Hl : lines_of rest' (splitlines rest'))
             by (apply IH; simpl in Hn; lia).
           pose proof (lines_after_break c' rest' _ Hc' Hl) as H1.
           apply List.Forall_forall. intros l Hin.
           rewrite List.Forall_forall in H1.
           destruct (H1 l Hin) as (a & b & -> & Hat).
           exists (S a). destruct b as [|b].
           { destruct Hat as (Hab & _). lia. }
           exists (S (S b)). split; [reflexivity|].
           apply line_at_cons; [assumption|discriminate].
        -- apply lines_after_break; [assumption|]. apply IH. lia.
    + assert (Hl : lines_of rest (splitlines rest)) by (apply IH; lia).
      destruct (splitlines rest) as [|l ls] eqn:E.
      * apply splitlines_nil in E. subst. split; [|constructor].
        exists 1. split; [reflexivity|]. split; [simpl; lia|]. now split.
      * destruct Hl as [(b & -> & Hat) Hrest]. split.
        -- exists (S b). split; [unfold slice; now rewrite !Nat.sub_0_r|].
           destruct Hat as (Hab & _ & Hnx).
           split; [simpl; lia|]. split; [exact I|exact Hnx].
        -- apply List.Forall_forall. intros l' Hin.
           rewrite List.Forall_forall in Hrest.
           destruct (Hrest l' Hin) as (a & b' & -> & Hat').
           exists (S a). destruct b' as [|b'].
           { destruct Hat' as (Hab & _). lia. }
           exists (S (S b')). split; [reflexivity|].
           apply line_at_cons; [assumption|discriminate].
Qed.

Lemma splitlines_line s l :
  In l (splitlines s) -> exists a b, l = slice s a b /\ line_at s a b.
Proof.
  apply lines_of_all. now apply (splitlines_lines_of (length s)).
Qed.

Lemma linebreak_values c :
  is_linebreak c = true ->
  In c [10; 11; 12; 13; 28; 29; 30; 133; 8232; 8233]%N.
Proof.
  unfold is_linebreak, in_ranges, in_range. simpl.
  rewrite !orb_true_iff, !andb_true_iff, !N.leb_le. simpl. lia.
Qed.

Lemma linebreak_not_word c :
  is_linebreak c = true -> is_word db c = false.
Proof.
  intros H. apply linebreak_values in H. simpl in H.
  repeat (destruct H as [<-|H]; [reflexivity|]). destruct H.
Qed.

End Lines.

(** ** The line filter makes no new match of a pattern that cannot read a
    line break *)

Section FilterKeeps.

Context (db : unicode_db) (ic : bool).

Lemma line_ctx_clean r t l lb rb :
  1 <= minlen r -> clean db ic r t -> In l (splitlines t) ->
  Forall (barrier db ic r) lb -> Forall (barrier db ic r) rb ->
  clean db ic r (lb ++ l ++ rb).
Proof.
  intros Hlen Ht Hin Hlb Hrb.
  destruct (splitlines_line _ _ Hin) as (a & b & -> & (Hab & Hp & Hn)).
  apply clean_ctx; try assumption.
  - intros _. right; right.
    destruct (prev_char t a); [simpl; now apply linebreak_not_word|reflexivity].
  - intros _. right; right.
    destruct (nth_error t b); [simpl; now apply linebreak_not_word|reflexivity].
  - intros x y _. apply Ht.
Qed.

Lemma join_cons2 sep (p q : list N) ps :
  join sep (p :: q :: ps) = p ++ sep ++ join sep (q :: ps).
Proof. reflexivity. Qed.

Lemma join_clean r lines :
  1 <= minlen r -> barrier db ic r 10%N ->
  (forall l lb rb, In l lines ->
     Forall (barrier db ic r) lb -> Forall (barrier db ic r) rb ->
     clean db ic r (lb ++ l ++ rb)) ->
  forall lb, Forall (barrier db ic r) lb ->
    clean db ic r (lb ++ join newline lines).
Proof.
  intros Hlen Hnl. induction lines as [|p ps IH]; intros Hl lb Hlb.
  - simpl. rewrite app_nil_r. now apply clean_barriers.
  - destruct ps as [|q ps].
    + simpl. rewrite <- (app_nil_r p). apply Hl; [now left|assumption|constructor].
    + rewrite join_cons2. unfold newline at 1.
      change ([10%N] ++ join newline (q :: ps))
        with (10%N :: join newline (q :: ps)).
      rewrite List.app_assoc. apply clean_glue; [assumption|apply Hnl| |].
      * rewrite <- List.app_assoc. apply Hl; [now left|assumption|].
        constructor; [exact Hnl|constructor].
      * change (clean db ic r ([10%N] ++ join newline (q :: ps))).
        apply IH; [|constructor; [exact Hnl|constructor]].
        intros l lb' rb' Hin. apply Hl. now right.
Qed.

End FilterKeeps.

Section SanitizeClean.

Context (db : unicode_db).

(** What holds of the text after the rules holds of the text returned, for
    a pattern that cannot read a line break. *)
Lemma sanitize_text_clean r t :
  1 <= minlen r -> barrier db true r 10%N ->
  clean db true r (after_id db t) ->
  clean db true r (text (sanitize_text db t)).
Proof.
  intros Hlen Hnl Ht. rewrite sanitize_text_eq. cbn [text].
  match goal with |- clean _ _ _ ?u => change (clean db true r ([] ++ u)) end.
  apply join_clean; [assumption|assumption| |constructor].
  intros l lb rb Hin Hlb Hrb. apply filter_In in Hin as [Hin _].
  eapply line_ctx_clean; eauto.
Qed.

Lemma rule_apply_id r repl t :
  1 <= minlen r -> clean db true r t -> rule_apply db r repl t = t.
Proof.
  intros Hlen Hc. unfold rule_apply.
  apply has_match_false in Hc; [|assumption]. now rewrite Hc.
Qed.

End SanitizeClean.

Section ReturnedText.

Context (db : unicode_db).

(** The text that [sanitize_text] returns has no match of the email, the
    hostname and, with ASCII digits, the ip pattern. *)
Lemma returned_text_clean t :
  clean db true email_pattern (text (sanitize_text db t)) /\
  clean db true hostname_pattern (text (sanitize_text db t)) /\
  (ascii_digits db t = true ->
   clean db true ip_pattern (text (sanitize_text db t))).
Proof.
  split; [|split].
  - apply sanitize_text_clean;
      [cbv; lia|split; vm_compute; reflexivity|apply email_after_id].
  - apply sanitize_text_clean;
      [cbv; lia|split; vm_compute; reflexivity|apply hostname_after_id].
  - intros Had. apply sanitize_text_clean;
      [cbv; lia|split; vm_compute; reflexivity|now apply ip_after_id].
Qed.

(** On a text without a match of the first three patterns, only the
    internal-id rule can do something. *)
Lemma redact_only_id T :
  clean db true ip_pattern T -> clean db true email_pattern T ->
  clean db true hostname_pattern T ->
  redact db T =
  (rule_apply db id_pattern (str "[redacted-id]") T,
   note_if (has_match db true id_pattern T) (str "internal-id")).
Proof.
  intros Hip Hem Hho.
  assert (E1 : after_ip db T = T)
    by (apply rule_apply_id; [cbv; lia|assumption]).
  assert (E2 : after_email db T = T)
    by (unfold after_email; rewrite E1; apply rule_apply_id;
        [cbv; lia|assumption]).
  assert (E3 : after_hostname db T = T)
    by (unfold after_hostname; rewrite E2; apply rule_apply_id;
        [cbv; lia|assumption]).
  rewrite redact_eq. unfold after_id. rewrite E1, E2, E3.
  apply has_match_false in Hip; [|cbv; lia].
  apply has_match_false in Hem; [|cbv; lia].
  apply has_match_false in Hho; [|cbv; lia].
  now rewrite Hip, Hem, Hho.
Qed.

End ReturnedText.

(** ** The export templates *)

Lemma join5 (a b c d e : list N) :
  join newline [a; b; c; d; e]
  = a ++ newline ++ b ++ newline ++ c ++ newline ++ d ++ newline ++ e.
Proof. reflexivity. Qed.

(** ** The handler [generate] *)

Section HandlerFacts.

Context (db : unicode_db).

Lemma sanitize_fields_eq (payload : gmap string (list N)) :
  fold_left (sanitize_field db) ["summary"; "impact"] (payload, []) =
  (sanitized_payload db payload,
   notes (sanitize_text db (default [] (payload !! "summary")))
   ++ notes (sanitize_text db (default [] (payload !! "impact")))).
Proof.
  cbn [fold_left sanitize_field]. unfold sanitized_payload.
  now rewrite lookup_insert_ne by done.
Qed.

Lemma sanitized_payload_other (payload : gmap string (list N)) k :
  k <> "summary" -> k <> "impact" ->
  sanitized_payload db payload !! k = payload !! k.
Proof.
  intros H1 H2. unfold sanitized_payload.
  now rewrite !lookup_insert_ne by done.
Qed.

Lemma generate_payload rt payload :
  snd (generate db rt payload) = sanitized_payload db payload.
Proof. unfold generate. cbv zeta. now rewrite sanitize_fields_eq. Qed.

Lemma generate_meta rt payload :
  meta_severity (meta (fst (generate db rt payload))) = request_severity payload /\
  meta_next_update (meta (fst (generate db rt payload)))
    = request_next_update db payload /\
  meta_stage (meta (fst (generate db rt payload))) = request_stage db payload /\
  llm_used (meta (fst (generate db rt payload)))
    = match try_llm_generate db rt (request_stage db payload)
              (sanitized_payload db payload) with
      | Some _ => true
      | None => false
      end.
Proof. unfold generate. cbv zeta. now rewrite sanitize_fields_eq. Qed.

Lemma generate_drafts rt payload :
  short (drafts (fst (generate db rt payload)))
    = templated (sanitized_payload db payload) (request_severity payload)
        (request_next_update db payload) (str "short") /\
  standard (drafts (fst (generate db rt payload)))
    = match try_llm_generate db rt (request_stage db payload)
              (sanitized_payload db payload) with
      | Some t => t
      | None => templated (sanitized_payload db payload)
                  (request_severity payload) (request_next_update db payload)
                  (str "standard")
      end /\
  detailed (drafts (fst (generate db rt payload)))
    = templated (sanitized_payload db payload) (request_severity payload)
        (request_next_update db payload) (str "detailed").
Proof. unfold generate. cbv zeta. now rewrite sanitize_fields_eq. Qed.

Lemma generate_exports rt payload :
  exports (fst (generate db rt payload))
  = format_templates (request_stage db payload)
      (standard (drafts (fst (generate db rt payload))))
      (request_next_update db payload).
Proof. unfold generate. cbv zeta. now rewrite sanitize_fields_eq. Qed.

Lemma lstrip_spaces s : forallb is_space s = true -> lstrip s = [].
Proof.
  induction s as [|c s IH]; [reflexivity|]. simpl.
  intros H. apply andb_true_iff in H as [Hc Hs]. rewrite Hc. now apply IH.
Qed.

Lemma strip_spaces s : forallb is_space s = true -> strip s = [].
Proof. intros H. unfold strip. now rewrite (lstrip_spaces s H). Qed.

Lemma try_llm_generate_fails rt payload :
  backend_fails db rt payload ->
  try_llm_generate db rt (request_stage db payload)
    (sanitized_payload db payload) = None.
Proof.
  intros [H|H]; unfold try_llm_generate.
  - now rewrite H.
  - destruct (negb (truthy (OPENAI_API_KEY rt))); [reflexivity|].
    unfold backend_call in H.
    destruct (backend rt _ _) as [|items]; [reflexivity|].
    unfold output_text. now rewrite (strip_spaces _ H).
Qed.

Lemma generate_backend_off rt payload :
  truthy (OPENAI_API_KEY rt) = false ->
  generate db rt payload = generate db no_backend payload.
Proof.
  intros H. unfold generate, try_llm_generate. cbv zeta.
  rewrite sanitize_fields_eq, H. reflexivity.
Qed.

End HandlerFacts.

(** ** Substrings *)

Lemma starts_with_app m b : starts_with m (m ++ b) = true.
Proof.
  induction m as [|x m IH]; [reflexivity|]. simpl.
  now rewrite N.eqb_refl, IH.
Qed.

Lemma starts_with_more m d t :
  starts_with m d = true -> starts_with m (d ++ t) = true.
Proof.
  revert d. induction m as [|x m IH]; intros d; [reflexivity|].
  destruct d as [|y d]; [discriminate|]. simpl.
  intros H. apply andb_true_iff in H as [-> H]. now apply IH.
Qed.

Lemma str_in_here m b : str_in m (m ++ b) = true.
Proof.
  destruct (m ++ b) eqn:E; simpl; rewrite <- E, starts_with_app; reflexivity.
Qed.

Lemma str_in_self m : str_in m m = true.
Proof. pose proof (str_in_here m []) as H. now rewrite app_nil_r in H. Qed.

Lemma str_in_skip m p d : str_in m d = true -> str_in m (p ++ d) = true.
Proof.
  intros H. induction p as [|c p IH]; [exact H|].
  simpl. rewrite IH. apply orb_true_r.
Qed.

Lemma str_in_more m d t : str_in m d = true -> str_in m (d ++ t) = true.
Proof.
  induction d as [|c d IH]; simpl.
  - rewrite orb_false_r. intros H. destruct m; [|discriminate].
    destruct t; reflexivity.
  - intros H. apply orb_true_iff in H as [H|H].
    + change (c :: d ++ t) with ((c :: d) ++ t).
      now rewrite (starts_with_more _ _ t H).
    + rewrite (IH H). apply orb_true_r.
Qed.

(** ** The drafts and exports contain what they are given *)

Section Templates.

Context (db : unicode_db).

Lemma templated_has_mitigation (p : gmap string (list N)) sev nu style m :
  p !! "mitigation" = Some m -> str_in m (templated p sev nu style) = true.
Proof.
  intros H. unfold templated. cbv zeta. rewrite H. cbn [default].
  destruct (decide (style = str "short"));
    [|destruct (decide (style = str "standard")); apply str_in_more];
    apply str_in_skip, str_in_here.
Qed.

Lemma templated_has_next_update (p : gmap string (list N)) sev nu style :
  str_in nu (templated p sev nu style) = true.
Proof.
  unfold templated. cbv zeta.
  destruct (decide (style = str "short"));
    [|destruct (decide (style = str "standard")); apply str_in_more];
    do 8 apply str_in_skip; apply str_in_here.
Qed.

Lemma email_eq stage draft nu :
  exists subject,
    email (format_templates stage draft nu)
    = subject ++ newline ++ newline ++ draft ++ newline ++ newline
      ++ str "Next update: " ++ nu.
Proof.
  unfold format_templates.
  destruct (decide (stage = str "initial"));
    [|destruct (decide (stage = str "resolution"))];
    cbn [email]; rewrite join5; eauto.
Qed.

Lemma email_has_draft stage draft nu m :
  str_in m draft = true ->
  str_in m (email (format_templates stage draft nu)) = true.
Proof.
  intros H. destruct (email_eq stage draft nu) as (subject & ->).
  do 3 apply str_in_skip. now apply str_in_more.
Qed.

Lemma email_has_next_update stage draft nu :
  str_in nu (email (format_templates stage draft nu)) = true.
Proof.
  destruct (email_eq stage draft nu) as (subject & ->).
  do 7 apply str_in_skip. apply str_in_self.
Qed.

Lemma statuspage_has_draft stage draft nu m :
  str_in m draft = true ->
  length (statuspage (format_templates stage draft nu)) < 2000 ->
  str_in m (statuspage (format_templates stage draft nu)) = true.
Proof.
  intros H. unfold format_templates.
  destruct (decide (stage = str "initial"));
    [|destruct (decide (stage = str "resolution"))]; cbn [statuspage];
    rewrite join5; intros Hl;
    (rewrite firstn_all2 by (rewrite length_firstn in Hl; lia));
    do 4 apply str_in_skip; now apply str_in_more.
Qed.

End Templates.


(** ** Literal patterns and the stack-trace filter *)

Section Literals.

Context (db : unicode_db).

Lemma skipn_nth_error (s : list N) i :
  skipn i s = match nth_error s i with
              | Some c => c :: skipn (S i) s
              | None => []
              end.
Proof.
  revert i. induction s as [|x s IH]; intros [|i]; try reflexivity.
  simpl. apply IH.
Qed.

Lemma chr_matches s a i j :
  matches db false s (chr a) i j <->
  j = S i /\ nth_error s i = Some (code a).
Proof.
  unfold chr. split.
  - inversion 1; subst. split; [reflexivity|].
    match goal with
    | Ha : accepts _ _ _ _ = true |- _ =>
        simpl in Ha; rewrite orb_false_r in Ha; apply N.eqb_eq in Ha; now subst
    end.
  - intros [-> H]. econstructor; [exact H|].
    simpl. now rewrite N.eqb_refl.
Qed.

(** A literal matches where its characters stand. *)
Lemma lit_matches s w : forall i j,
  matches db false s (cat (map chr w)) i j <->
  j = i + length w /\ starts_with (map code w) (skipn i s) = true.
Proof.
  induction w as [|a w IH]; intros i j.
  - simpl. rewrite Nat.add_0_r. split.
    + inversion 1; subst. auto.
    + intros [-> _]. constructor.
  - assert (Hhead : forall k,
              (k = S i /\ nth_error s i = Some (code a)) /\
              (j = k + length w /\ starts_with (map code w) (skipn k s) = true)
              <-> k = S i /\ j = i + length (a :: w) /\
                  starts_with (map code (a :: w)) (skipn i s) = true).
    { intros k. rewrite (skipn_nth_error s i). simpl. split.
      - intros [[-> Hn] [-> Hs]]. rewrite Hn. simpl.
        rewrite N.eqb_refl, Hs. split; [reflexivity|]. split; [lia|reflexivity].
      - intros (-> & -> & Hs).
        destruct (nth_error s i) as [c|]; [|discriminate]. simpl in Hs.
        apply andb_true_iff in Hs as [Hc Hs]. apply N.eqb_eq in Hc. subst.
        split; [split; reflexivity|]. split; [lia|assumption]. }
    destruct w as [|b w].
    + simpl cat. rewrite chr_matches. split.
      * intros [-> Hn]. apply (Hhead (S i)).
        split; [split; [reflexivity|exact Hn]|].
        split; [simpl; lia|reflexivity].
      * intros H.
        destruct (proj2 (Hhead (S i)) (conj eq_refl H)) as [[_ Hn] [Hj _]].
        split; [simpl in Hj; lia|exact Hn].
    + change (cat (map chr (a :: b :: w)))
        with (Seq (chr a) (cat (map chr (b :: w)))). split.
      * intros Hm. apply inv_seq in Hm as (k & H1 & H2).
        apply chr_matches in H1. apply IH in H2.
        apply (Hhead k). split; assumption.
      * intros H. destruct (proj2 (Hhead (S i))) as [H1 H2];
          [split; [reflexivity|exact H]|].
        apply m_seq with (k := S i); [now apply chr_matches|now apply IH].
Qed.

Lemma str_in_iff m d :
  str_in m d = true <-> exists i, starts_with m (skipn i d) = true.
Proof.
  split.
  - induction d as [|c d IH]; simpl.
    + rewrite orb_false_r. intros H. now exists 0.
    + intros H. apply orb_true_iff in H as [H|H]; [now exists 0|].
      destruct (IH H) as (i & Hi). now exists (S i).
  - intros (i & Hi). revert d Hi. induction i as [|i IH]; intros d Hi.
    + change (skipn 0 d) with d in Hi. destruct d; simpl; now rewrite Hi.
    + destruct d as [|c d].
      * change (skipn (S i) (@nil N)) with (@nil N) in Hi.
        simpl. now rewrite Hi.
      * change (skipn (S i) (c :: d)) with (skipn i d) in Hi.
        simpl. rewrite (IH d Hi). apply orb_true_r.
Qed.

Lemma has_match_iff ic s r :
  1 <= minlen r ->
  (has_match db ic r s = true <-> exists i j, matches db ic s r i j).
Proof.
  intros Hlen. split.
  - unfold has_match, re_search.
    destruct (search_at db ic s r 0) as [[i j]|] eqn:E; [|discriminate].
    apply search_at_some in E as (_ & Hm & _). eauto.
  - intros (i & j & Hm). eapply has_match_true; eauto.
Qed.

Lemma lit_found s w :
  (exists i j, matches db false s (lit w) i j) <-> str_in (str w) s = true.
Proof.
  unfold lit, str. rewrite str_in_iff. split.
  - intros (i & j & Hm). apply lit_matches in Hm as [_ H]. eauto.
  - intros (i & H). exists i, (i + length (list_ascii_of_string w)).
    apply lit_matches. auto.
Qed.

Lemma alt_found s r1 r2 :
  (exists i j, matches db false s (Alt r1 r2) i j) <->
  (exists i j, matches db false s r1 i j) \/
  (exists i j, matches db false s r2 i j).
Proof.
  split.
  - intros (i & j & Hm). inversion Hm; subst; eauto.
  - intros [(i & j & Hm)|(i & j & Hm)]; exists i, j;
      [now apply m_alt_l|now apply m_alt_r].
Qed.

(** The filter removes the lines that contain one of these six strings. *)
Lemma is_stack_line_spec line :
  is_stack_line db line =
  str_in (str "Traceback") line || str_in (str "Exception") line
  || str_in (str "Error:") line || str_in (str " at \/") line
  || str_in (str " at \\") line || str_in (str "Caused by:") line.
Proof.
  apply eq_true_iff_eq. unfold is_stack_line.
  rewrite has_match_iff by (cbv; lia).
  unfold stack_pattern. cbn [alts].
  rewrite !alt_found, !lit_found, !orb_true_iff. tauto.
Qed.

End Literals.

Section SubPlaceholder.

Context (db : unicode_db).

(** A rule that finds a match writes its placeholder. *)
Lemma rule_apply_has_repl r repl t :
  has_match db true r t = true -> str_in repl (rule_apply db r repl t) = true.
Proof.
  intros H. unfold rule_apply. rewrite H. revert H.
  unfold has_match, re_search, re_sub. rewrite sub_from_S.
  destruct (search_at db true t r 0) as [[i j]|]; [|discriminate].
  intros _. apply str_in_skip, str_in_here.
Qed.

End SubPlaceholder.

Section IpNote.

Context (db : unicode_db).

(** The note of kind ip is the note of the first rule and of no other rule
    or line: it is among the notes exactly when the ip pattern has a match
    in the input. *)
Lemma ip_note_iff t :
  In (redacted_note (str "ip")) (notes (sanitize_text db t)) <->
  has_match db true ip_pattern t = true.
Proof.
  rewrite sanitize_text_eq, redact_eq. cbn [notes snd]. split.
  - intros Hin.
    destruct (has_match db true ip_pattern t); [reflexivity|].
    exfalso. cbn [note_if app] in Hin.
    repeat (apply in_app_or in Hin; destruct Hin as [Hin|Hin]).
    + destruct (has_match db true email_pattern (after_ip db t));
        [destruct Hin as [Hin|[]]|destruct Hin].
      apply (f_equal token) in Hin. vm_compute in Hin. discriminate.
    + destruct (has_match db true hostname_pattern (after_email db t));
        [destruct Hin as [Hin|[]]|destruct Hin].
      apply (f_equal token) in Hin. vm_compute in Hin. discriminate.
    + destruct (has_match db true id_pattern (after_hostname db t));
        [destruct Hin as [Hin|[]]|destruct Hin].
      apply (f_equal token) in Hin. vm_compute in Hin. discriminate.
    + apply List.in_map_iff in Hin. destruct Hin as (l & Hin & _).
      apply (f_equal token) in Hin. vm_compute in Hin. discriminate.
  - intros Hm. rewrite Hm. apply in_or_app. left. now left.
Qed.

End IpNote.

(** * The claims *)

(** ** The sanitizer *)

(** C1, as amended: for every input text, [re.search] finds no match of the
    email pattern or of the hostname pattern in the text that
    [sanitize_text] returns, and none of the ip pattern when the decimal
    digits of the input are the ASCII digits; it finds no match of the
    internal-id pattern in the text after the four rules, before the
    stack-trace filter; and the notes have an entry of kind ip exactly when
    it finds a match of the ip pattern in the input, which is an address
    that stands between word boundaries. *)
Theorem C1_sanitize_text_leaves_no_match db t :
  has_match db true email_pattern (text (sanitize_text db t)) = false /\
  has_match db true hostname_pattern (text (sanitize_text db t)) = false /\
  (ascii_digits db t = true ->
   has_match db true ip_pattern (text (sanitize_text db t)) = false) /\
  has_match db true id_pattern (fst (redact db t)) = false /\
  (In (redacted_note (str "ip")) (notes (sanitize_text db t)) <->
   has_match db true ip_pattern t = true).
Proof.
  destruct (returned_text_clean db t) as (Hem & Hho & Hip).
  split; [|split; [|split; [|split]]].
  - now apply has_match_false; [cbv; lia|].
  - now apply has_match_false; [cbv; lia|].
  - intros Had. apply has_match_false; [cbv; lia|]. now apply Hip.
  - apply has_match_false; [cbv; lia|].
    rewrite redact_eq. cbn [fst]. apply id_own.
  - apply ip_note_iff.
Qed.

(** C1 fails as stated: the line "Error:" is removed, and the text returned
    is "id:" and "abcdefg" on two lines, in which [re.search] finds a match
    of the internal-id pattern. *)
Lemma C1_counterexample :
  text (sanitize_text latin_db
          (str "id:" ++ newline ++ str "Error:" ++ newline ++ str "abcdefg"))
  = str "id:" ++ newline ++ str "abcdefg" /\
  has_match latin_db true id_pattern
    (text (sanitize_text latin_db
             (str "id:" ++ newline ++ str "Error:" ++ newline ++ str "abcdefg")))
  = true.
Proof. split; vm_compute; reflexivity. Qed.

(** Why C1 asks for ASCII digits: [\d] also reads the other decimal digits
    of Unicode, which the hostname class does not.  With the Arabic-Indic
    digits U+0661 to U+0664 after an email address, the email rule makes a
    word boundary before them and no later rule reads them. *)
Example ip_with_wide_digits :
  text (sanitize_text arabic_indic_db
          (str "a@b.cc" ++ [1633; 46; 1634; 46; 1635; 46; 1636]%N))
  = str "[redacted-email]" ++ [1633; 46; 1634; 46; 1635; 46; 1636]%N /\
  has_match arabic_indic_db true ip_pattern
    (text (sanitize_text arabic_indic_db
             (str "a@b.cc" ++ [1633; 46; 1634; 46; 1635; 46; 1636]%N)))
  = true.
Proof. split; vm_compute; reflexivity. Qed.

(** Why C1 speaks of a match of the ip pattern and not of an address
    anywhere in the text: the pattern starts and ends with [\b], so an
    address that follows or precedes a letter, a digit or an underscore is
    no match.  "v10.0.0.1" is read by the hostname rule alone, and of
    "node_192.168.1.10_up" the hostname rule reads "168.1" only; neither
    gets a note of kind ip. *)
Example ip_inside_word :
  has_match latin_db true ip_pattern (str "v10.0.0.1") = false /\
  sanitize_text latin_db (str "v10.0.0.1")
  = {| text := str "[redacted-host]";
       notes := [redacted_note (str "hostname")] |} /\
  has_match latin_db true ip_pattern (str "node_192.168.1.10_up") = false /\
  sanitize_text latin_db (str "node_192.168.1.10_up")
  = {| text := str "node_192.[redacted-host].10_up";
       notes := [redacted_note (str "hostname")] |}.
Proof. repeat split; vm_compute; reflexivity. Qed.

(** C2: the rules run in the order ip, email, hostname, internal-id, each
    on the text the rules before it left; a rule whose pattern [re.search]
    finds writes its placeholder, leaves no match of its pattern in the text
    it hands on and adds one note, whatever the number of matches, so that
    no note occurs twice; matching ignores case; and "user@example.com" gets
    the one note email. *)
Theorem C2_rules_in_order db t :
  redact db t =
    (after_id db t,
     note_if (has_match db true ip_pattern t) (str "ip")
     ++ note_if (has_match db true email_pattern (after_ip db t)) (str "email")
     ++ note_if (has_match db true hostname_pattern (after_email db t))
          (str "hostname")
     ++ note_if (has_match db true id_pattern (after_hostname db t))
          (str "internal-id")) /\
  has_match db true ip_pattern (after_ip db t) = false /\
  has_match db true email_pattern (after_email db t) = false /\
  has_match db true hostname_pattern (after_hostname db t) = false /\
  has_match db true id_pattern (after_id db t) = false /\
  (has_match db true ip_pattern t = true ->
   str_in (str "[redacted-ip]") (after_ip db t) = true) /\
  (has_match db true email_pattern (after_ip db t) = true ->
   str_in (str "[redacted-email]") (after_email db t) = true) /\
  (has_match db true hostname_pattern (after_email db t) = true ->
   str_in (str "[redacted-host]") (after_hostname db t) = true) /\
  (has_match db true id_pattern (after_hostname db t) = true ->
   str_in (str "[redacted-id]") (after_id db t) = true) /\
  List.NoDup (snd (redact db t)) /\
  sanitize_text db (str "user@example.com") =
    {| text := str "[redacted-email]";
       notes := [redacted_note (str "email")] |} /\
  sanitize_text db (str "a@b.co, c@d.org and E@F.NET") =
    {| text := str "[redacted-email], [redacted-email] and [redacted-email]";
       notes := [redacted_note (str "email")] |} /\
  sanitize_text db (str "Internal-ID: ABC123xyz") =
    {| text := str "[redacted-id]";
       notes := [redacted_note (str "internal-id")] |}.
Proof.
  split; [apply redact_eq|].
  split; [apply has_match_false; [cbv; lia|apply ip_own]|].
  split; [apply has_match_false; [cbv; lia|apply email_own]|].
  split; [apply has_match_false; [cbv; lia|apply hostname_own]|].
  split; [apply has_match_false; [cbv; lia|apply id_own]|].
  split; [apply rule_apply_has_repl|].
  split; [apply rule_apply_has_repl|].
  split; [apply rule_apply_has_repl|].
  split; [apply rule_apply_has_repl|].
  split.
  - rewrite redact_eq. cbn [snd].
    destruct (has_match db true ip_pattern t),
      (has_match db true email_pattern (after_ip db t)),
      (has_match db true hostname_pattern (after_email db t)),
      (has_match db true id_pattern (after_hostname db t));
      cbv [note_if app];
      repeat (constructor;
              [cbv [In]; intros H;
               repeat (destruct H as [H|H]; [vm_compute in H; discriminate|]);
               exact H|]);
      constructor.
  - split; [vm_compute; reflexivity|].
    split; vm_compute; reflexivity.
Qed.

(** ** The handler *)

(** C3, as amended: only summary and impact are sanitized; the mitigation
    and the next_update of the request stay as they are in the dict; a
    mitigation that the caller supplies is part of the short and detailed
    drafts, and, when the backend text is not used, of the standard draft
    and the email export, and of the statuspage export when that is shorter
    than its cap of 2000 characters; the resolved next update is part of
    the short and detailed drafts and of the email export. *)
Theorem C3_mitigation_not_sanitized db rt (payload : gmap string (list N)) m :
  payload !! "mitigation" = Some m ->
  snd (generate db rt payload) !! "mitigation" = Some m /\
  snd (generate db rt payload) !! "next_update" = payload !! "next_update" /\
  str_in m (short (drafts (fst (generate db rt payload)))) = true /\
  str_in m (detailed (drafts (fst (generate db rt payload)))) = true /\
  (llm_used (meta (fst (generate db rt payload))) = false ->
   str_in m (standard (drafts (fst (generate db rt payload)))) = true /\
   str_in m (email (exports (fst (generate db rt payload)))) = true /\
   (length (statuspage (exports (fst (generate db rt payload)))) < 2000 ->
    str_in m (statuspage (exports (fst (generate db rt payload)))) = true)) /\
  str_in (meta_next_update (meta (fst (generate db rt payload))))
    (short (drafts (fst (generate db rt payload)))) = true /\
  str_in (meta_next_update (meta (fst (generate db rt payload))))
    (detailed (drafts (fst (generate db rt payload)))) = true /\
  str_in (meta_next_update (meta (fst (generate db rt payload))))
    (email (exports (fst (generate db rt payload)))) = true.
Proof.
  intros Hm.
  assert (Hp : sanitized_payload db payload !! "mitigation" = Some m)
    by (rewrite sanitized_payload_other by done; exact Hm).
  destruct (generate_meta db rt payload) as (_ & E2 & _ & E4).
  destruct (generate_drafts db rt payload) as (D1 & D2 & D3).
  rewrite generate_payload, generate_exports, E2, E4, D1, D3.
  split; [exact Hp|].
  split; [now apply sanitized_payload_other|].
  split; [now apply templated_has_mitigation|].
  split; [now apply templated_has_mitigation|].
  split.
  { intros Hu.
    assert (Hs : str_in m (standard (drafts (fst (generate db rt payload)))) = true).
    { rewrite D2.
      destruct (try_llm_generate db rt (request_stage db payload)
                  (sanitized_payload db payload)); [discriminate|].
      now apply templated_has_mitigation. }
    split; [exact Hs|]. split.
    - now apply email_has_draft.
    - now apply statuspage_has_draft. }
  split; [apply templated_has_next_update|].
  split; [apply templated_has_next_update|].
  apply email_has_next_update.
Qed.

Lemma C3_witness :
  ({[ "mitigation" := str "rebooting 10.0.0.1" ]} : gmap string (list N))
    !! "mitigation" = Some (str "rebooting 10.0.0.1") /\
  str_in (str "rebooting 10.0.0.1")
    (short (drafts (fst (generate latin_db no_backend
                           {[ "mitigation" := str "rebooting 10.0.0.1" ]}))))
  = true.
Proof.
  split; [reflexivity|].
  exact (proj1 (proj2 (proj2
    (C3_mitigation_not_sanitized latin_db no_backend
       {[ "mitigation" := str "rebooting 10.0.0.1" ]}
       (str "rebooting 10.0.0.1") eq_refl)))).
Defined.

(** C3 fails as stated: when the backend answers, its text is the standard
    draft and the body of both exports, and the mitigation is in none of
    them. *)
Lemma C3_counterexample :
  standard (drafts (fst (generate latin_db answering_backend
                           {[ "mitigation" := str "rebooting 10.0.0.1" ]})))
  = str "All systems are operating normally." /\
  str_in (str "rebooting 10.0.0.1")
    (standard (drafts (fst (generate latin_db answering_backend
                              {[ "mitigation" := str "rebooting 10.0.0.1" ]}))))
  = false /\
  str_in (str "rebooting 10.0.0.1")
    (statuspage (exports (fst (generate latin_db answering_backend
                                 {[ "mitigation" := str "rebooting 10.0.0.1" ]}))))
  = false /\
  str_in (str "rebooting 10.0.0.1")
    (email (exports (fst (generate latin_db answering_backend
                            {[ "mitigation" := str "rebooting 10.0.0.1" ]}))))
  = false.
Proof.
  split; [vm_compute; reflexivity|]. split; [vm_compute; reflexivity|].
  split; vm_compute; reflexivity.
Qed.

(** ** The stack-trace filter *)

(** C4, at the failing input: a line with the fragment " at /" is kept and
    gets no note, and so is a line with " at \"; the filter removes a line
    exactly when it contains one of "Traceback", "Exception", "Error:",
    "Caused by:", or " at " followed by a backslash and a slash, or " at "
    followed by two backslashes. *)
Theorem C4_path_lines_are_kept db :
  sanitize_text db (str "  at /srv/app") =
    {| text := str "  at /srv/app"; notes := [] |} /\
  sanitize_text db (str "  at \srv\app") =
    {| text := str "  at \srv\app"; notes := [] |} /\
  sanitize_text db (str "x" ++ newline ++ str "  at \/srv" ++ newline ++ str "y") =
    {| text := str "x" ++ newline ++ str "y"; notes := [removed_note] |} /\
  sanitize_text db (str "x" ++ newline ++ str "  at \\srv" ++ newline ++ str "y") =
    {| text := str "x" ++ newline ++ str "y"; notes := [removed_note] |} /\
  (forall line,
     is_stack_line db line =
     str_in (str "Traceback") line || str_in (str "Exception") line
     || str_in (str "Error:") line || str_in (str " at \/") line
     || str_in (str " at \\") line || str_in (str "Caused by:") line) /\
  (forall t,
     sanitize_text db t =
     {| text := join newline
          (List.filter (fun l => negb (is_stack_line db l))
             (splitlines (fst (redact db t))));
        notes := snd (redact db t)
          ++ map (fun _ => removed_note)
               (List.filter (is_stack_line db) (splitlines (fst (redact db t)))) |}).
Proof.
  split; [vm_compute; reflexivity|].
  split; [vm_compute; reflexivity|].
  split; [vm_compute; reflexivity|].
  split; [vm_compute; reflexivity|].
  split; [apply is_stack_line_spec|].
  intros t. rewrite sanitize_text_eq, redact_eq. reflexivity.
Qed.

(** ** The backend *)

(** C5: when the backend is not configured, raises, or returns text that is
    empty or white space only, [generate] returns its response as usual: the
    standard draft is the template, filled from the sanitized payload, the
    exports are rendered from it, and the backend counts as not used. *)
Theorem C5_backend_failure_falls_back db rt payload :
  backend_fails db rt payload ->
  standard (drafts (fst (generate db rt payload)))
  = templated (snd (generate db rt payload))
      (meta_severity (meta (fst (generate db rt payload))))
      (meta_next_update (meta (fst (generate db rt payload))))
      (str "standard") /\
  llm_used (meta (fst (generate db rt payload))) = false /\
  exports (fst (generate db rt payload))
  = format_templates (meta_stage (meta (fst (generate db rt payload))))
      (standard (drafts (fst (generate db rt payload))))
      (meta_next_update (meta (fst (generate db rt payload)))).
Proof.
  intros H.
  destruct (generate_meta db rt payload) as (E1 & E2 & E3 & E4).
  destruct (generate_drafts db rt payload) as (_ & D & _).
  rewrite (try_llm_generate_fails db rt _ H) in D, E4.
  rewrite generate_payload, E1, E2, E3, E4, D.
  split; [reflexivity|]. split; [reflexivity|].
  rewrite generate_exports, D. reflexivity.
Qed.

Lemma C5_witness :
  backend_fails latin_db blank_backend initial_request /\
  llm_used (meta (fst (generate latin_db blank_backend initial_request))) = false.
Proof.
  assert (H : backend_fails latin_db blank_backend initial_request)
    by (right; vm_compute; reflexivity).
  split; [exact H|].
  exact (proj1 (proj2
    (C5_backend_failure_falls_back latin_db blank_backend initial_request H))).
Defined.

(** C6: with no backend configured, the request
    [{summary: "X", severity: "SEV2", stage: "initial"}] gets a response
    whose [llm_used] is false, whose standard draft contains "We will
    provide further details as they are verified." and whose statuspage
    export starts with the title of the initial stage. *)
Theorem C6_no_backend_initial_request db rt :
  truthy (OPENAI_API_KEY rt) = false ->
  llm_used (meta (fst (generate db rt initial_request))) = false /\
  str_in (str "We will provide further details as they are verified.")
    (standard (drafts (fst (generate db rt initial_request)))) = true /\
  starts_with (str "Service Degradation " ++ [8211%N] ++ str " Update")
    (statuspage (exports (fst (generate db rt initial_request)))) = true /\
  standard (drafts (fst (generate db rt initial_request)))
  = str "We are investigating an issue impacting . Severity: SEV2. Next update in 60 minutes. Summary: X We will provide further details as they are verified.".
Proof.
  intros H. rewrite (generate_backend_off db rt _ H).
  split; [vm_compute; reflexivity|].
  split; [vm_compute; reflexivity|].
  split; vm_compute; reflexivity.
Qed.

Lemma C6_witness :
  truthy (OPENAI_API_KEY no_backend) = false /\
  llm_used (meta (fst (generate latin_db no_backend initial_request))) = false.
Proof.
  split; [reflexivity|].
  exact (proj1 (C6_no_backend_initial_request latin_db no_backend eq_refl)).
Defined.

(** ** The cadence policy *)

(** C7, as amended: a next_update that the caller supplies and that is not
    empty is the resolved next update, unchanged; otherwise the resolved
    next update is the cadence of the severity, where a missing severity
    counts as SEV3; the cadence ignores the case of the severity and is
    "30 minutes" for SEV1, "60 minutes" for SEV2, "2 hours" for SEV3,
    "daily or on meaningful change" for SEV4 and "60 minutes" for any other
    severity; so a request without severity and next_update resolves to
    "2 hours". *)
Theorem C7_next_update_resolution db rt (payload : gmap string (list N)) :
  (forall v, payload !! "next_update" = Some v -> v <> [] ->
     meta_next_update (meta (fst (generate db rt payload))) = v) /\
  (truthy (payload !! "next_update") = false ->
     meta_next_update (meta (fst (generate db rt payload)))
     = default_cadence db (default (str "SEV3") (payload !! "severity"))) /\
  (forall sev, py_upper db sev = str "SEV1" ->
     default_cadence db sev = str "30 minutes") /\
  (forall sev, py_upper db sev = str "SEV2" ->
     default_cadence db sev = str "60 minutes") /\
  (forall sev, py_upper db sev = str "SEV3" ->
     default_cadence db sev = str "2 hours") /\
  (forall sev, py_upper db sev = str "SEV4" ->
     default_cadence db sev = str "daily or on meaningful change") /\
  (forall sev, py_upper db sev <> str "SEV1" -> py_upper db sev <> str "SEV2" ->
     py_upper db sev <> str "SEV3" -> py_upper db sev <> str "SEV4" ->
     default_cadence db sev = str "60 minutes") /\
  default_cadence db (str "sev1") = str "30 minutes" /\
  default_cadence db (str "Sev3") = str "2 hours" /\
  default_cadence db (str "critical") = str "60 minutes" /\
  (truthy (payload !! "next_update") = false -> payload !! "severity" = None ->
     meta_next_update (meta (fst (generate db rt payload))) = str "2 hours").
Proof.
  destruct (generate_meta db rt payload) as (_ & E & _). rewrite E.
  unfold request_next_update, request_severity, or_else.
  split.
  { intros v Hv Hne. rewrite Hv. destruct v; [congruence|reflexivity]. }
  split.
  { intros Ht. now rewrite Ht. }
  split; [intros sev Hs; unfold default_cadence; rewrite Hs; reflexivity|].
  split; [intros sev Hs; unfold default_cadence; rewrite Hs; reflexivity|].
  split; [intros sev Hs; unfold default_cadence; rewrite Hs; reflexivity|].
  split; [intros sev Hs; unfold default_cadence; rewrite Hs; reflexivity|].
  split.
  { intros sev H1 H2 H3 H4. unfold default_cadence, SEVERITY_CADENCE.
    rewrite !lookup_insert_ne by congruence. now rewrite lookup_empty. }
  split; [vm_compute; reflexivity|].
  split; [vm_compute; reflexivity|].
  split; [vm_compute; reflexivity|].
  intros Ht Hs. rewrite Ht, Hs. vm_compute. reflexivity.
Qed.

(** C7 fails as stated: a request without severity and without next_update
    resolves to "2 hours", not to "60 minutes". *)
Lemma C7_counterexample :
  meta_next_update (meta (fst (generate latin_db no_backend ∅))) = str "2 hours"
  /\ str "2 hours" <> str "60 minutes".
Proof. split; [vm_compute; reflexivity|vm_compute; discriminate]. Qed.

(** ** The payload *)

(** C8, as amended: [generate] writes the sanitized summary and impact into
    the caller's dict, adding the two keys when they are missing, and leaves
    every other entry as it was. *)
Theorem C8_payload_updated_in_place db rt (payload : gmap string (list N)) :
  snd (generate db rt payload)
  = <["impact" := text (sanitize_text db (default [] (payload !! "impact")))]>
    (<["summary" := text (sanitize_text db (default [] (payload !! "summary")))]>
       payload) /\
  snd (generate db rt payload) !! "summary"
  = Some (text (sanitize_text db (default [] (payload !! "summary")))) /\
  snd (generate db rt payload) !! "impact"
  = Some (text (sanitize_text db (default [] (payload !! "impact")))) /\
  (forall k, k <> "summary" -> k <> "impact" ->
     snd (generate db rt payload) !! k = payload !! k).
Proof.
  rewrite generate_payload. split; [reflexivity|]. split; [|split].
  - unfold sanitized_payload.
    rewrite lookup_insert_ne by done. apply lookup_insert_eq.
  - unfold sanitized_payload. apply lookup_insert_eq.
  - intros k H1 H2. now apply sanitized_payload_other.
Qed.

(** C8 fails as stated: after [generate], the caller's dict holds the
    redacted summary and a new, empty impact. *)
Lemma C8_counterexample :
  snd (generate latin_db no_backend {[ "summary" := str "user@example.com" ]})
    !! "summary" = Some (str "[redacted-email]") /\
  snd (generate latin_db no_backend {[ "summary" := str "user@example.com" ]})
    !! "impact" = Some [] /\
  snd (generate latin_db no_backend {[ "summary" := str "user@example.com" ]})
  <> {[ "summary" := str "user@example.com" ]}.
Proof.
  split; [vm_compute; reflexivity|]. split; [vm_compute; reflexivity|].
  intros E.
  assert (H : snd (generate latin_db no_backend
                     {[ "summary" := str "user@example.com" ]}) !! "impact"
              = ({[ "summary" := str "user@example.com" ]}
                   : gmap string (list N)) !! "impact")
    by (now rewrite E).
  vm_compute in H. discriminate.
Qed.

(** ** The exports *)

(** C9: the statuspage export is at most 2000 characters long, whatever the
    stage, draft and next update; the email export is the subject, the
    draft and the next-update line in full, so it is longer than the draft;
    a draft of 3000 characters gives a statuspage export of 2000 characters
    and an email export of more than 3000. *)
Theorem C9_statuspage_capped_email_full stage draft next_update :
  length (statuspage (format_templates stage draft next_update)) <= 2000 /\
  (exists subject,
     In subject [str "[Incident] Initial Notice"; str "[Incident] Resolved";
                 str "[Incident] Update"] /\
     email (format_templates stage draft next_update)
     = subject ++ newline ++ newline ++ draft ++ newline ++ newline
       ++ str "Next update: " ++ next_update /\
     length (email (format_templates stage draft next_update))
     = length subject + length draft + length next_update + 17) /\
  (length draft = 3000 ->
   length (statuspage (format_templates stage draft next_update)) = 2000 /\
   3000 < length (email (format_templates stage draft next_update))).
Proof.
  assert (Hemail : exists subject,
     In subject [str "[Incident] Initial Notice"; str "[Incident] Resolved";
                 str "[Incident] Update"] /\
     email (format_templates stage draft next_update)
     = subject ++ newline ++ newline ++ draft ++ newline ++ newline
       ++ str "Next update: " ++ next_update /\
     length (email (format_templates stage draft next_update))
     = length subject + length draft + length next_update + 17).
  { unfold format_templates.
    destruct (decide (stage = str "initial"));
      [|destruct (decide (stage = str "resolution"))];
      cbn [email]; rewrite join5; eexists;
      (split; [|split; [reflexivity|]]);
      [simpl; auto| |simpl; auto| |simpl; auto|];
      rewrite !length_app; simpl; lia. }
  assert (Hlen : forall l : list N, length (firstn 2000 l) <= 2000)
    by (intros l; rewrite length_firstn; lia).
  split; [|split; [exact Hemail|]].
  - unfold format_templates.
    destruct (decide (stage = str "initial"));
      [|destruct (decide (stage = str "resolution"))]; cbn [statuspage];
      apply Hlen.
  - intros Hd. split.
    + unfold format_templates.
      destruct (decide (stage = str "initial"));
        [|destruct (decide (stage = str "resolution"))]; cbn [statuspage];
        rewrite join5, length_firstn, !length_app; lia.
    + destruct Hemail as (subject & _ & _ & ->). lia.
Qed.

(** ** Running the rules again *)

(** C10, as amended: when the decimal digits of the input are the ASCII
    digits, the four rules run again on the text they produced (the text
    before the stack-trace filter) change nothing and add no note; and run
    on the text that [sanitize_text] returns, the ip, email and hostname
    rules do nothing: only the internal-id rule can change that text and add
    a note. *)
Theorem C10_rules_idempotent db t :
  ascii_digits db t = true ->
  redact db (fst (redact db t)) = (fst (redact db t), []) /\
  redact db (text (sanitize_text db t)) =
    (rule_apply db id_pattern (str "[redacted-id]") (text (sanitize_text db t)),
     note_if (has_match db true id_pattern (text (sanitize_text db t)))
       (str "internal-id")).
Proof.
  intros Had. split.
  - rewrite (redact_eq db t). cbn [fst].
    pose proof (id_own db t) as Hid.
    rewrite redact_only_id;
      [|now apply ip_after_id|apply email_after_id|apply hostname_after_id].
    rewrite (rule_apply_id db id_pattern _ _ ltac:(cbv; lia) Hid).
    apply has_match_false in Hid; [|cbv; lia]. now rewrite Hid.
  - destruct (returned_text_clean db t) as (Hem & Hho & Hip).
    apply redact_only_id; auto.
Qed.

Lemma C10_witness :
  ascii_digits latin_db (str "mail a@b.co from 10.0.0.1") = true /\
  redact latin_db (fst (redact latin_db (str "mail a@b.co from 10.0.0.1")))
  = (fst (redact latin_db (str "mail a@b.co from 10.0.0.1")), []).
Proof.
  split; [reflexivity|].
  exact (proj1 (C10_rules_idempotent latin_db
                  (str "mail a@b.co from 10.0.0.1") eq_refl)).
Defined.

(** C10 fails as stated: the first run removes the line "Error:" and
    returns "id:" and "abcdefg" on two lines; the second run replaces that
    text by the placeholder and adds a note. *)
Lemma C10_counterexample :
  sanitize_text latin_db
    (text (sanitize_text latin_db
             (str "id:" ++ newline ++ str "Error:" ++ newline ++ str "abcdefg")))
  = {| text := str "[redacted-id]";
       notes := [redacted_note (str "internal-id")] |} /\
  text (sanitize_text latin_db
          (str "id:" ++ newline ++ str "Error:" ++ newline ++ str "abcdefg"))
  = str "id:" ++ newline ++ str "abcdefg" /\
  text (sanitize_text latin_db
          (text (sanitize_text latin_db (str "a" ++ newline ++ newline))))
  <> text (sanitize_text latin_db (str "a" ++ newline ++ newline)).
Proof.
  split; [vm_compute; reflexivity|].
  split; [vm_compute; reflexivity|].
  vm_compute. discriminate.
Qed.

(** * Further properties *)

(** ** Lines and joins *)

Section LinesMore.

Lemma splitlines_no_break n : forall s,
  length s <= n ->
  Forall (Forall (fun c => is_linebreak c = false)) (splitlines s).
Proof.
  induction n as [|n IH]; intros s Hn.
  - destruct s; [constructor|simpl in Hn; lia].
  - destruct s as [|c rest]; [constructor|]. simpl in Hn. simpl.
    destruct (is_linebreak c) eqn:Hc.
    + constructor; [constructor|].
      destruct rest as [|c' rest']; [constructor|].
      destruct ((c =? 13)%N && (c' =? 10)%N); apply IH; simpl in *; lia.
    + assert (Hl := IH rest ltac:(lia)).
      destruct (splitlines rest) as [|l ls].
      * repeat constructor. exact Hc.
      * inversion Hl; subst. constructor; [|assumption].
        constructor; assumption.
Qed.

Lemma splitlines_single s :
  Forall (fun c => is_linebreak c = false) s -> s <> [] -> splitlines s = [s].
Proof.
  induction 1 as [|c rest Hc Hrest IH]; [congruence|]. intros _.
  simpl. rewrite Hc. destruct rest as [|c2 rest2]; [reflexivity|].
  now rewrite IH.
Qed.

Lemma splitlines_app_newline p rest :
  Forall (fun c => is_linebreak c = false) p ->
  splitlines (p ++ 10%N :: rest) = p :: splitlines rest.
Proof.
  induction 1 as [|c p Hc Hp IH].
  - simpl. now destruct rest.
  - simpl. rewrite Hc, IH. reflexivity.
Qed.

(** Splitting the joined lines gives back lines that were joined. *)
Lemma splitlines_join ls :
  Forall (Forall (fun c => is_linebreak c = false)) ls ->
  forall l, In l (splitlines (join newline ls)) -> In l ls.
Proof.
  induction 1 as [|p ps Hp Hps IH]; intros l; [intros []|].
  destruct ps as [|q ps].
  - simpl. destruct p as [|c p]; [intros []|].
    rewrite splitlines_single by (assumption || discriminate). auto.
  - rewrite join_cons2. unfold newline at 1.
    change ([10%N] ++ join newline (q :: ps))
      with (10%N :: join newline (q :: ps)).
    rewrite splitlines_app_newline by assumption.
    intros [<-|H]; [now left|]. right. now apply IH.
Qed.

Lemma join_Forall (P : N -> Prop) sep ls :
  Forall P sep -> Forall (Forall P) ls -> Forall P (join sep ls).
Proof.
  intros Hsep. induction 1 as [|p ps Hp Hps IH]; [constructor|].
  destruct ps as [|q ps]; [exact Hp|].
  rewrite join_cons2. apply Forall_app. split; [assumption|].
  apply Forall_app. split; assumption.
Qed.

Lemma filter_Forall {A} (P : A -> Prop) f (l : list A) :
  Forall P l -> Forall P (List.filter f l).
Proof.
  intros H. apply List.Forall_forall. intros x Hx.
  apply filter_In in Hx as [Hx _].
  rewrite List.Forall_forall in H. auto.
Qed.

Lemma map_const_repeat {A B} (x : B) (l : list A) :
  map (fun _ => x) l = repeat x (length l).
Proof. induction l; simpl; congruence. Qed.

End LinesMore.

(** ** More on [sanitize_text] *)

Section SanitizerMore.

Context (db : unicode_db).

Lemma rule_apply_Forall (P : N -> Prop) r repl s :
  Forall P s -> Forall P repl -> Forall P (rule_apply db r repl s).
Proof.
  intros Hs Hr. unfold rule_apply.
  destruct (has_match db true r s); [|assumption]. now apply re_sub_Forall.
Qed.

Lemma slice_Forall (P : N -> Prop) s a b : Forall P s -> Forall P (slice s a b).
Proof. intros H. unfold slice. now apply Forall_take, Forall_drop. Qed.

Lemma placeholder_from_input t p :
  In p placeholders -> Forall (from_input t) p.
Proof.
  intros Hp. apply List.Forall_forall. intros c Hc.
  right; left. eauto.
Qed.

Lemma after_id_from_input t : Forall (from_input t) (after_id db t).
Proof.
  unfold after_id, after_hostname, after_email, after_ip.
  repeat apply rule_apply_Forall;
    try (apply placeholder_from_input; simpl; tauto).
  apply List.Forall_forall. intros c Hc. now left.
Qed.

Lemma kept_lines_no_break t :
  Forall (Forall (fun c => is_linebreak c = false))
    (List.filter (fun l => negb (is_stack_line db l))
       (splitlines (after_id db t))).
Proof.
  apply filter_Forall. now apply (splitlines_no_break (length (after_id db t))).
Qed.

End SanitizerMore.

(** X1: a text on one line in which [re.search] finds none of the four
    patterns and none of the strings of the stack-trace filter comes back
    from [sanitize_text] as it is, without notes. *)
Theorem X1_sanitize_text_keeps_plain_line db t :
  has_match db true ip_pattern t = false ->
  has_match db true email_pattern t = false ->
  has_match db true hostname_pattern t = false ->
  has_match db true id_pattern t = false ->
  forallb (fun c => negb (is_linebreak c)) t = true ->
  is_stack_line db t = false ->
  sanitize_text db t = {| text := t; notes := [] |}.
Proof.
  intros Hip Hem Hho Hid Hnb Hst.
  assert (E : after_id db t = t).
  { unfold after_id, after_hostname, after_email, after_ip, rule_apply.
    now rewrite Hip, Hem, Hho, Hid. }
  rewrite sanitize_text_eq, redact_eq, E. cbn [snd].
  unfold after_hostname, after_email, after_ip, rule_apply.
  rewrite Hip, Hem, Hho, Hid. cbn [note_if app].
  destruct t as [|c t]; [reflexivity|].
  assert (Es : splitlines (c :: t) = [c :: t]).
  { apply splitlines_single; [|discriminate].
    apply List.Forall_forall. intros x Hx.
    rewrite forallb_forall in Hnb. specialize (Hnb x Hx).
    now apply negb_true_iff in Hnb. }
  rewrite Es. simpl. now rewrite Hst.
Qed.

Lemma X1_witness :
  sanitize_text latin_db (str "All services are back to normal")
  = {| text := str "All services are back to normal"; notes := [] |}.
Proof.
  apply (X1_sanitize_text_keeps_plain_line latin_db
           (str "All services are back to normal")); reflexivity.
Defined.

(** X2: the notes of [sanitize_text] are notes of the rules, each at most
    once and in the order ip, email, hostname, internal-id, followed by the
    notes of the removed lines, which are all the same note. *)
Theorem X2_notes_rules_then_lines db t :
  exists rs k,
    notes (sanitize_text db t) = rs ++ repeat removed_note k /\
    sublist rs rule_notes /\
    k = length (List.filter (is_stack_line db) (splitlines (fst (redact db t)))).
Proof.
  exists (snd (redact db t)),
    (length (List.filter (is_stack_line db) (splitlines (fst (redact db t))))).
  split; [|split; [|reflexivity]].
  - rewrite sanitize_text_eq, redact_eq. cbn [notes fst snd].
    now rewrite map_const_repeat.
  - rewrite redact_eq. cbn [snd].
    destruct (has_match db true ip_pattern t),
      (has_match db true email_pattern (after_ip db t)),
      (has_match db true hostname_pattern (after_email db t)),
      (has_match db true id_pattern (after_hostname db t));
      cbv [note_if app rule_notes rules map snd];
      repeat first [apply sublist_nil | apply sublist_skip | apply sublist_cons].
Qed.

(** X3: no line of the text that [sanitize_text] returns is a line that
    the stack-trace filter removes. *)
Theorem X3_returned_lines_pass_filter db t l :
  In l (splitlines (text (sanitize_text db t))) -> is_stack_line db l = false.
Proof.
  rewrite sanitize_text_eq. cbn [text]. intros H.
  apply splitlines_join in H; [|apply kept_lines_no_break].
  apply filter_In in H as [_ H]. now apply negb_true_iff in H.
Qed.

Lemma X3_witness :
  is_stack_line latin_db (str "retrying") = false.
Proof.
  apply (X3_returned_lines_pass_filter latin_db
           (str "Traceback (most recent call last):" ++ newline ++ str "retrying")).
  assert (E : splitlines
                (text (sanitize_text latin_db
                         (str "Traceback (most recent call last):" ++ newline
                          ++ str "retrying")))
              = [str "retrying"]) by (vm_compute; reflexivity).
  rewrite E. now left.
Defined.

(** X4: [sanitize_text] writes nothing of its own but the placeholders and
    the newlines between lines: every character of the text it returns is a
    character of the input, of a placeholder, or a newline. *)
Theorem X4_returned_characters db t :
  Forall (from_input t) (text (sanitize_text db t)).
Proof.
  rewrite sanitize_text_eq. cbn [text]. apply join_Forall.
  - constructor; [right; right; reflexivity|constructor].
  - apply filter_Forall. apply List.Forall_forall. intros l Hl.
    apply splitlines_line in Hl as (a & b & -> & _).
    apply slice_Forall, after_id_from_input.
Qed.

(** X5: the only line break in the text that [sanitize_text] returns is
    the newline: the other line terminators of the input ([\r], [\r\n],
    [\v], [\f], U+001C to U+001E, U+0085, U+2028, U+2029) are replaced. *)
Theorem X5_line_breaks_normalized db t :
  Forall (fun c => is_linebreak c = true -> c = 10%N)
    (text (sanitize_text db t)).
Proof.
  rewrite sanitize_text_eq. cbn [text]. apply join_Forall.
  - constructor; [intros _; reflexivity|constructor].
  - eapply Forall_impl; [apply kept_lines_no_break|].
    intros l Hl. eapply Forall_impl; [exact Hl|].
    intros c Hc Hb. congruence.
Qed.

(** ** More on [default_cadence] *)

Ltac case_ranges c :=
  destruct (N.leb_spec 97 c), (N.leb_spec c 122), (N.leb_spec 65 c),
    (N.leb_spec c 90); simpl;
  repeat match goal with
         | |- context [(?a <=? ?b)%N] => destruct (N.leb_spec a b); simpl
         end; try lia.

Lemma ascii_upper_idem c : ascii_upper (ascii_upper c) = ascii_upper c.
Proof. unfold ascii_upper, in_range. simpl. case_ranges c. Qed.

Lemma ascii_upper_lower c : ascii_upper (ascii_lower c) = ascii_upper c.
Proof. unfold ascii_upper, ascii_lower, in_range. simpl. case_ranges c. Qed.

Lemma ascii_upper_is_ascii c : is_ascii c = true -> is_ascii (ascii_upper c) = true.
Proof.
  unfold is_ascii, ascii_upper, in_range. simpl. rewrite !N.ltb_lt.
  case_ranges c.
Qed.

Lemma ascii_lower_is_ascii c : is_ascii c = true -> is_ascii (ascii_lower c) = true.
Proof.
  unfold is_ascii, ascii_lower, in_range. simpl. rewrite !N.ltb_lt.
  case_ranges c.
Qed.

Lemma forallb_map_ascii (f : N -> N) s :
  (forall c, is_ascii c = true -> is_ascii (f c) = true) ->
  forallb is_ascii s = true -> forallb is_ascii (map f s) = true.
Proof.
  intros Hf. induction s as [|c s IH]; [reflexivity|]. simpl.
  intros H. apply andb_true_iff in H as [Hc Hs].
  now rewrite (Hf c Hc), IH.
Qed.

Section CadenceMore.

Context (db : unicode_db).

Lemma py_upper_upper s :
  forallb is_ascii s = true -> py_upper db (py_upper db s) = py_upper db s.
Proof.
  intros H. unfold py_upper. rewrite H.
  rewrite (forallb_map_ascii _ _ ascii_upper_is_ascii H).
  rewrite map_map. apply map_ext. intros c. apply ascii_upper_idem.
Qed.

Lemma py_upper_lower s :
  forallb is_ascii s = true -> py_upper db (py_lower db s) = py_upper db s.
Proof.
  intros H. unfold py_upper, py_lower. rewrite H.
  rewrite (forallb_map_ascii _ _ ascii_lower_is_ascii H).
  rewrite map_map. apply map_ext. intros c. apply ascii_upper_lower.
Qed.

End CadenceMore.

Lemma default_cadence_range db sev :
  In (default_cadence db sev)
    [str "30 minutes"; str "60 minutes"; str "2 hours";
     str "daily or on meaningful change"].
Proof.
  unfold default_cadence, SEVERITY_CADENCE.
  destruct (decide (str "SEV1" = py_upper db sev)) as [<-|H1];
    [rewrite lookup_insert_eq; simpl; auto|rewrite lookup_insert_ne by assumption].
  destruct (decide (str "SEV2" = py_upper db sev)) as [<-|H2];
    [rewrite lookup_insert_eq; simpl; auto|rewrite lookup_insert_ne by assumption].
  destruct (decide (str "SEV3" = py_upper db sev)) as [<-|H3];
    [rewrite lookup_insert_eq; simpl; auto|rewrite lookup_insert_ne by assumption].
  destruct (decide (str "SEV4" = py_upper db sev)) as [<-|H4];
    [rewrite lookup_insert_eq; simpl; auto|rewrite lookup_insert_ne by assumption].
  rewrite lookup_empty. simpl. auto.
Qed.

(** X6: whatever the severity, [default_cadence] returns one of its four
    cadences. *)
Theorem X6_cadence_is_one_of_four db sev :
  In (default_cadence db sev)
    [str "30 minutes"; str "60 minutes"; str "2 hours";
     str "daily or on meaningful change"].
Proof. apply default_cadence_range. Qed.

(** X7: for a severity written in ASCII, [default_cadence] gives the same
    cadence for the severity, for its upper-case form and for its
    lower-case form. *)
Theorem X7_cadence_ignores_ascii_case db sev :
  forallb is_ascii sev = true ->
  default_cadence db (py_upper db sev) = default_cadence db sev /\
  default_cadence db (py_lower db sev) = default_cadence db sev.
Proof.
  intros H. unfold default_cadence.
  now rewrite py_upper_upper, py_upper_lower.
Qed.

Lemma X7_witness :
  forallb is_ascii (str "sEv4") = true /\
  default_cadence latin_db (py_lower latin_db (str "sEv4"))
  = default_cadence latin_db (str "sEv4").
Proof.
  split; [reflexivity|].
  exact (proj2 (X7_cadence_ignores_ascii_case latin_db (str "sEv4") eq_refl)).
Defined.

(** ** More on [format_templates] *)

Lemma starts_with_firstn m b n :
  length m <= n -> starts_with m (firstn n (m ++ b)) = true.
Proof.
  intros H. rewrite firstn_app, (firstn_all2 m) by assumption.
  apply starts_with_app.
Qed.

Lemma format_templates_eq stage draft nu :
  exists title subject,
    ((stage = str "initial" /\
      title = str "Service Degradation " ++ [8211%N] ++ str " Update" /\
      subject = str "[Incident] Initial Notice") \/
     (stage = str "resolution" /\
      title = str "Incident Resolved " ++ [8211%N] ++ str " Summary" /\
      subject = str "[Incident] Resolved") \/
     (stage <> str "initial" /\ stage <> str "resolution" /\
      title = str "Incident Update " ++ [8211%N] ++ str " Progress" /\
      subject = str "[Incident] Update")) /\
    statuspage (format_templates stage draft nu)
    = firstn 2000 (title ++ newline ++ newline ++ draft ++ newline ++ newline
                   ++ str "Next update: " ++ nu) /\
    email (format_templates stage draft nu)
    = subject ++ newline ++ newline ++ draft ++ newline ++ newline
      ++ str "Next update: " ++ nu.
Proof.
  unfold format_templates.
  destruct (decide (stage = str "initial")) as [E1|N1];
    [|destruct (decide (stage = str "resolution")) as [E2|N2]];
    cbn [statuspage email]; rewrite !join5; do 2 eexists;
    (split; [|split; reflexivity]); [left|right; left|right; right]; auto.
Qed.

(** X8: a draft of 1972 characters or more fills the statuspage export up
    to its cap: the export is the first 2000 characters of the title, a
    blank line and the draft, and has nothing of the next-update line. *)
Theorem X8_long_draft_pushes_out_next_update stage draft nu :
  1972 <= length draft ->
  exists title,
    In title [str "Service Degradation " ++ [8211%N] ++ str " Update";
              str "Incident Resolved " ++ [8211%N] ++ str " Summary";
              str "Incident Update " ++ [8211%N] ++ str " Progress"] /\
    statuspage (format_templates stage draft nu)
    = firstn 2000 (title ++ newline ++ newline ++ draft).
Proof.
  intros Hlen.
  destruct (format_templates_eq stage draft nu)
    as (title & subject & Hcase & -> & _).
  exists title. split.
  - destruct Hcase as [(_ & -> & _)|[(_ & -> & _)|(_ & _ & -> & _)]];
      simpl; auto.
  - replace (title ++ newline ++ newline ++ draft ++ newline ++ newline
             ++ str "Next update: " ++ nu)
      with ((title ++ newline ++ newline ++ draft)
            ++ newline ++ newline ++ str "Next update: " ++ nu)
      by (now rewrite <- !List.app_assoc).
    apply take_app_le. rewrite !length_app.
    destruct Hcase as [(_ & -> & _)|[(_ & -> & _)|(_ & _ & -> & _)]];
      simpl; lia.
Qed.

Lemma X8_witness :
  exists title,
    In title [str "Service Degradation " ++ [8211%N] ++ str " Update";
              str "Incident Resolved " ++ [8211%N] ++ str " Summary";
              str "Incident Update " ++ [8211%N] ++ str " Progress"] /\
    statuspage (format_templates (str "ongoing") (repeat 65%N 1972)
                  (str "60 minutes"))
    = firstn 2000 (title ++ newline ++ newline ++ repeat 65%N 1972).
Proof.
  apply (X8_long_draft_pushes_out_next_update (str "ongoing")
           (repeat 65%N 1972) (str "60 minutes")).
  vm_compute. apply le_n.
Defined.

(** X9: when the statuspage export is shorter than its cap, it was not
    cut, and the two exports differ in their first line only: the
    statuspage export starts with the title of the stage and the email
    export with the subject of the stage, and after the title and after
    the subject comes the same text, which ends with the next update. *)
Theorem X9_short_exports_share_body stage draft nu :
  length (statuspage (format_templates stage draft nu)) < 2000 ->
  exists title subject,
    ((stage = str "initial" /\
      title = str "Service Degradation " ++ [8211%N] ++ str " Update" /\
      subject = str "[Incident] Initial Notice") \/
     (stage = str "resolution" /\
      title = str "Incident Resolved " ++ [8211%N] ++ str " Summary" /\
      subject = str "[Incident] Resolved") \/
     (stage <> str "initial" /\ stage <> str "resolution" /\
      title = str "Incident Update " ++ [8211%N] ++ str " Progress" /\
      subject = str "[Incident] Update")) /\
    statuspage (format_templates stage draft nu)
    = title ++ newline ++ newline ++ draft ++ newline ++ newline
      ++ str "Next update: " ++ nu /\
    email (format_templates stage draft nu)
    = subject ++ newline ++ newline ++ draft ++ newline ++ newline
      ++ str "Next update: " ++ nu.
Proof.
  destruct (format_templates_eq stage draft nu)
    as (title & subject & Hcase & -> & ->).
  intros Hlen. exists title, subject.
  split; [exact Hcase|]. split; [|reflexivity].
  apply firstn_all2. rewrite length_firstn in Hlen. lia.
Qed.

Lemma X9_witness :
  exists title subject,
    ((str "initial" = str "initial" /\
      title = str "Service Degradation " ++ [8211%N] ++ str " Update" /\
      subject = str "[Incident] Initial Notice") \/
     (str "initial" = str "resolution" /\
      title = str "Incident Resolved " ++ [8211%N] ++ str " Summary" /\
      subject = str "[Incident] Resolved") \/
     (str "initial" <> str "initial" /\ str "initial" <> str "resolution" /\
      title = str "Incident Update " ++ [8211%N] ++ str " Progress" /\
      subject = str "[Incident] Update")) /\
    statuspage (format_templates (str "initial") (str "We are on it.")
                  (str "30 minutes"))
    = title ++ newline ++ newline ++ str "We are on it." ++ newline ++ newline
      ++ str "Next update: " ++ str "30 minutes" /\
    email (format_templates (str "initial") (str "We are on it.")
             (str "30 minutes"))
    = subject ++ newline ++ newline ++ str "We are on it." ++ newline ++ newline
      ++ str "Next update: " ++ str "30 minutes".
Proof.
  apply (X9_short_exports_share_body (str "initial") (str "We are on it.")
           (str "30 minutes")).
  vm_compute. lia.
Defined.

(** ** More on [generate] and [try_llm_generate] *)

Section HandlerMore.

Context (db : unicode_db).

Lemma generate_guardrails rt payload :
  guard_notes (guardrails (fst (generate db rt payload)))
  = notes (sanitize_text db (default [] (payload !! "summary")))
    ++ notes (sanitize_text db (default [] (payload !! "impact"))) /\
  blocked (guardrails (fst (generate db rt payload))) = false.
Proof. unfold generate. cbv zeta. now rewrite sanitize_fields_eq. Qed.

Lemma generate_llm_meta rt payload :
  llm_mode (meta (fst (generate db rt payload)))
  = (if truthy (OPENAI_API_KEY rt) then str "openai" else str "template") /\
  llm_model (meta (fst (generate db rt payload)))
  = (if llm_used (meta (fst (generate db rt payload)))
     then OPENAI_MODEL rt else None).
Proof. unfold generate. cbv zeta. now rewrite sanitize_fields_eq. Qed.

Lemma try_llm_generate_some rt stage payload t :
  try_llm_generate db rt stage payload = Some t ->
  truthy (OPENAI_API_KEY rt) = true /\
  exists items,
    backend rt (default (str "gpt-4o-mini") (OPENAI_MODEL rt))
      (build_prompt db stage payload) = Output items /\
    output_text items = t /\ t <> [].
Proof.
  unfold try_llm_generate.
  destruct (truthy (OPENAI_API_KEY rt)); [|discriminate]. simpl.
  destruct (backend rt _ _) as [|items]; [discriminate|].
  destruct (output_text items) as [|c u] eqn:E; [discriminate|].
  intros [= <-]. split; [reflexivity|]. exists items. now rewrite E.
Qed.

Lemma templated_styles (p : gmap string (list N)) sev nu :
  templated p sev nu (str "standard")
  = templated p sev nu (str "short")
    ++ str " We will provide further details as they are verified." /\
  templated p sev nu (str "detailed")
  = templated p sev nu (str "short")
    ++ str " Resolution steps are underway; we will share a full summary post-resolution.".
Proof.
  unfold templated. cbv zeta.
  destruct (decide (str "short" = str "short")) as [_|E]; [|congruence].
  destruct (decide (str "standard" = str "short")) as [E|_];
    [vm_compute in E; discriminate|].
  destruct (decide (str "standard" = str "standard")) as [_|E]; [|congruence].
  destruct (decide (str "detailed" = str "short")) as [E|_];
    [vm_compute in E; discriminate|].
  destruct (decide (str "detailed" = str "standard")) as [E|_];
    [vm_compute in E; discriminate|].
  split; reflexivity.
Qed.

Lemma templated_short (p : gmap string (list N)) sev nu :
  templated p sev nu (str "short")
  = str "We are " ++ default (str "investigating") (p !! "mitigation")
    ++ str " an issue impacting "
    ++ default (str "unspecified scope") (p !! "impact") ++ str ". "
    ++ str "Severity: " ++ sev ++ str ". Next update in " ++ nu ++ str ". "
    ++ str "Summary: " ++ strip (default [] (p !! "summary")).
Proof.
  unfold templated. cbv zeta.
  destruct (decide (str "short" = str "short")) as [_|E]; [|congruence].
  reflexivity.
Qed.

Lemma sanitized_payload_summary (payload : gmap string (list N)) :
  sanitized_payload db payload !! "summary"
  = Some (text (sanitize_text db (default [] (payload !! "summary")))).
Proof.
  unfold sanitized_payload. rewrite lookup_insert_ne by done.
  apply lookup_insert_eq.
Qed.

Lemma sanitized_payload_impact (payload : gmap string (list N)) :
  sanitized_payload db payload !! "impact"
  = Some (text (sanitize_text db (default [] (payload !! "impact")))).
Proof. unfold sanitized_payload. apply lookup_insert_eq. Qed.

Lemma lstrip_head s c rest : lstrip s = c :: rest -> is_space c = false.
Proof.
  induction s as [|x s IH]; simpl; [discriminate|].
  destruct (is_space x) eqn:E; [assumption|]. now intros [= <- _].
Qed.

Lemma lstrip_suffix s : exists pre, s = pre ++ lstrip s.
Proof.
  induction s as [|x s (pre & IH)]; [now exists []|]. simpl.
  destruct (is_space x); [|now exists []].
  exists (x :: pre). simpl. now f_equal.
Qed.

(** What [strip()] returns has no white space at its two ends. *)
Lemma strip_ends s :
  (forall c rest, strip s = c :: rest -> is_space c = false) /\
  (forall pre c, strip s = pre ++ [c] -> is_space c = false).
Proof.
  unfold strip. set (u := lstrip s). set (v := lstrip (rev u)). split.
  - intros c rest H.
    assert (Hv : v = rev rest ++ [c])
      by (rewrite <- (rev_involutive v), H; reflexivity).
    destruct (lstrip_suffix (rev u)) as (pre & Hu). fold v in Hu.
    rewrite Hv in Hu. apply (f_equal (@rev N)) in Hu.
    rewrite rev_involutive, !rev_app_distr in Hu. simpl in Hu.
    apply (lstrip_head s c _ Hu).
  - intros pre c H.
    assert (Hv : v = c :: rev pre).
    { rewrite <- (rev_involutive v), H, rev_app_distr. reflexivity. }
    apply (lstrip_head (rev u) c _ Hv).
Qed.

End HandlerMore.

(** X10: [generate] takes a missing or empty stage as "ongoing", and reads
    a stage written in ASCII without regard to case: "initial" and
    "resolution" in any case select their title and subject, and the stage
    reported is the lower-case one. *)
Theorem X10_stage_default_and_case db rt (payload : gmap string (list N)) :
  (truthy (payload !! "stage") = false ->
   meta_stage (meta (fst (generate db rt payload))) = str "ongoing" /\
   starts_with (str "Incident Update " ++ [8211%N] ++ str " Progress")
     (statuspage (exports (fst (generate db rt payload)))) = true /\
   starts_with (str "[Incident] Update")
     (email (exports (fst (generate db rt payload)))) = true) /\
  (forall st, payload !! "stage" = Some st -> forallb is_ascii st = true ->
     map ascii_lower st = str "initial" ->
     meta_stage (meta (fst (generate db rt payload))) = str "initial" /\
     starts_with (str "Service Degradation " ++ [8211%N] ++ str " Update")
       (statuspage (exports (fst (generate db rt payload)))) = true /\
     starts_with (str "[Incident] Initial Notice")
       (email (exports (fst (generate db rt payload)))) = true) /\
  (forall st, payload !! "stage" = Some st -> forallb is_ascii st = true ->
     map ascii_lower st = str "resolution" ->
     meta_stage (meta (fst (generate db rt payload))) = str "resolution" /\
     starts_with (str "Incident Resolved " ++ [8211%N] ++ str " Summary")
       (statuspage (exports (fst (generate db rt payload)))) = true /\
     starts_with (str "[Incident] Resolved")
       (email (exports (fst (generate db rt payload)))) = true).
Proof.
  destruct (generate_meta db rt payload) as (_ & _ & E & _).
  rewrite generate_exports, E. clear E.
  assert (Hlower : forall st, payload !! "stage" = Some st ->
            forallb is_ascii st = true -> st <> [] ->
            request_stage db payload = map ascii_lower st).
  { intros st Hst Ha Hne. unfold request_stage, or_else, py_lower.
    rewrite Hst. destruct st as [|c st]; [congruence|].
    change (py_lower db (c :: st) = map ascii_lower (c :: st)).
    unfold py_lower. now rewrite Ha. }
  split; [|split].
  - intros Ht. assert (Es : request_stage db payload = str "ongoing").
    { unfold request_stage, or_else. rewrite Ht. vm_compute. reflexivity. }
    rewrite Es. split; [reflexivity|].
    destruct (format_templates_eq (str "ongoing")
                (standard (drafts (fst (generate db rt payload))))
                (request_next_update db payload))
      as (title & subject & Hcase & -> & ->).
    destruct Hcase as [(E & _)|[(E & _)|(_ & _ & -> & ->)]];
      try (vm_compute in E; discriminate).
    split; [apply starts_with_firstn; simpl; lia|apply starts_with_app].
  - intros st Hst Ha Hl.
    rewrite (Hlower st Hst Ha) by (intros ->; vm_compute in Hl; discriminate).
    rewrite Hl. split; [reflexivity|].
    destruct (format_templates_eq (str "initial")
                (standard (drafts (fst (generate db rt payload))))
                (request_next_update db payload))
      as (title & subject & Hcase & -> & ->).
    destruct Hcase as [(_ & -> & ->)|[(E & _)|(E & _)]];
      try (vm_compute in E; discriminate); try congruence.
    split; [apply starts_with_firstn; simpl; lia|apply starts_with_app].
  - intros st Hst Ha Hl.
    rewrite (Hlower st Hst Ha) by (intros ->; vm_compute in Hl; discriminate).
    rewrite Hl. split; [reflexivity|].
    destruct (format_templates_eq (str "resolution")
                (standard (drafts (fst (generate db rt payload))))
                (request_next_update db payload))
      as (title & subject & Hcase & -> & ->).
    destruct Hcase as [(E & _)|[(_ & -> & ->)|(_ & E & _)]];
      try (vm_compute in E; discriminate); try congruence.
    split; [apply starts_with_firstn; simpl; lia|apply starts_with_app].
Qed.

(** X11: whatever the stage, the detailed draft is the short draft followed
    by the sentence on resolution steps, and, when the backend text is not
    used, the standard draft is the short draft followed by the sentence on
    further details. *)
Theorem X11_drafts_extend_short db rt payload :
  detailed (drafts (fst (generate db rt payload)))
  = short (drafts (fst (generate db rt payload)))
    ++ str " Resolution steps are underway; we will share a full summary post-resolution."
  /\
  (llm_used (meta (fst (generate db rt payload))) = false ->
   standard (drafts (fst (generate db rt payload)))
   = short (drafts (fst (generate db rt payload)))
     ++ str " We will provide further details as they are verified.").
Proof.
  destruct (generate_drafts db rt payload) as (D1 & D2 & D3).
  destruct (generate_meta db rt payload) as (_ & _ & _ & E4).
  rewrite D1, D2, D3, E4.
  destruct (templated_styles (sanitized_payload db payload)
              (request_severity payload) (request_next_update db payload))
    as (Hs & Hd).
  split; [exact Hd|].
  destruct (try_llm_generate db rt _ _); [discriminate|]. intros _. exact Hs.
Qed.

(** X12: the guardrail notes of the response are the notes for the summary
    followed by the notes for the impact, and [blocked] is false for every
    request. *)
Theorem X12_guardrails db rt (payload : gmap string (list N)) :
  guard_notes (guardrails (fst (generate db rt payload)))
  = notes (sanitize_text db (default [] (payload !! "summary")))
    ++ notes (sanitize_text db (default [] (payload !! "impact"))) /\
  blocked (guardrails (fst (generate db rt payload))) = false.
Proof. apply generate_guardrails. Qed.

(** X13: the response says that the backend was used only when an API key
    is set, in which case the mode is "openai" and the model reported is the
    one of the environment; when the backend is not used no model is
    reported; and without an API key the mode is "template". *)
Theorem X13_backend_metadata db rt payload :
  (llm_used (meta (fst (generate db rt payload))) = true ->
   truthy (OPENAI_API_KEY rt) = true /\
   llm_mode (meta (fst (generate db rt payload))) = str "openai" /\
   llm_model (meta (fst (generate db rt payload))) = OPENAI_MODEL rt) /\
  (llm_used (meta (fst (generate db rt payload))) = false ->
   llm_model (meta (fst (generate db rt payload))) = None) /\
  (truthy (OPENAI_API_KEY rt) = false ->
   llm_mode (meta (fst (generate db rt payload))) = str "template" /\
   llm_used (meta (fst (generate db rt payload))) = false).
Proof.
  destruct (generate_llm_meta db rt payload) as (Hmode & Hmodel).
  destruct (generate_meta db rt payload) as (_ & _ & _ & Hused).
  rewrite Hmode, Hmodel. split; [|split].
  - intros Hu. rewrite Hu. rewrite Hused in Hu.
    destruct (try_llm_generate db rt _ _) as [t|] eqn:E; [|discriminate].
    apply try_llm_generate_some in E as (Hk & _). now rewrite Hk.
  - intros Hu. now rewrite Hu.
  - intros Hk. rewrite Hk. split; [reflexivity|].
    rewrite Hused. unfold try_llm_generate. now rewrite Hk.
Qed.

(** X14: after [generate], [re.search] finds no match of the email or of
    the hostname pattern in the summary and in the impact that the dict
    holds and the drafts are written from, and none of the ip pattern when
    the decimal digits of the field were ASCII digits. *)
Theorem X14_fields_are_redacted db rt (payload : gmap string (list N)) f :
  f = "summary" \/ f = "impact" ->
  exists v,
    snd (generate db rt payload) !! f = Some v /\
    has_match db true email_pattern v = false /\
    has_match db true hostname_pattern v = false /\
    (ascii_digits db (default [] (payload !! f)) = true ->
     has_match db true ip_pattern v = false).
Proof.
  intros Hf. rewrite generate_payload.
  exists (text (sanitize_text db (default [] (payload !! f)))).
  destruct (returned_text_clean db (default [] (payload !! f)))
    as (Hem & Hho & Hip).
  split.
  - destruct Hf as [->| ->];
      [apply sanitized_payload_summary|apply sanitized_payload_impact].
  - split; [now apply has_match_false; [cbv; lia|]|].
    split; [now apply has_match_false; [cbv; lia|]|].
    intros Had. apply has_match_false; [cbv; lia|]. now apply Hip.
Qed.

Lemma X14_witness :
  exists v,
    snd (generate latin_db no_backend
           {[ "summary" := str "mail ops@corp.example.com" ]}) !! "summary"
    = Some v /\
    has_match latin_db true email_pattern v = false /\
    has_match latin_db true hostname_pattern v = false /\
    (ascii_digits latin_db
       (default [] (({[ "summary" := str "mail ops@corp.example.com" ]}
                       : gmap string (list N)) !! "summary")) = true ->
     has_match latin_db true ip_pattern v = false).
Proof.
  apply (X14_fields_are_redacted latin_db no_backend
           {[ "summary" := str "mail ops@corp.example.com" ]} "summary").
  left. reflexivity.
Defined.

(** X15: the short draft is written from the sanitized summary and impact
    and from the mitigation, severity and next update as given; the impact
    is the sanitized one even when the request has none, so the fallback
    "unspecified scope" of the template is never taken. *)
Theorem X15_short_draft db rt (payload : gmap string (list N)) :
  short (drafts (fst (generate db rt payload)))
  = str "We are " ++ default (str "investigating") (payload !! "mitigation")
    ++ str " an issue impacting "
    ++ text (sanitize_text db (default [] (payload !! "impact"))) ++ str ". "
    ++ str "Severity: " ++ default (str "SEV3") (payload !! "severity")
    ++ str ". Next update in "
    ++ meta_next_update (meta (fst (generate db rt payload))) ++ str ". "
    ++ str "Summary: "
    ++ strip (text (sanitize_text db (default [] (payload !! "summary")))).
Proof.
  destruct (generate_drafts db rt payload) as (D1 & _).
  destruct (generate_meta db rt payload) as (_ & E2 & _).
  rewrite D1, E2, templated_short.
  rewrite sanitized_payload_summary, sanitized_payload_impact.
  rewrite sanitized_payload_other by done. reflexivity.
Qed.

(** X16: when the backend returns text that is not white space only, that
    text, stripped, is the standard draft as it is, without passing through
    [sanitize_text], and it is part of the email export; the short draft is
    the one of the template. *)
Theorem X16_backend_text_is_used_as_is db rt payload items :
  truthy (OPENAI_API_KEY rt) = true ->
  backend_call db rt payload = Output items ->
  output_text items <> [] ->
  standard (drafts (fst (generate db rt payload))) = output_text items /\
  llm_used (meta (fst (generate db rt payload))) = true /\
  str_in (output_text items)
    (email (exports (fst (generate db rt payload)))) = true /\
  short (drafts (fst (generate db rt payload)))
  = short (drafts (fst (generate db no_backend payload))).
Proof.
  intros Hk Hcall Hne.
  assert (E : try_llm_generate db rt (request_stage db payload)
                (sanitized_payload db payload) = Some (output_text items)).
  { unfold try_llm_generate. rewrite Hk. simpl.
    unfold backend_call in Hcall. rewrite Hcall.
    destruct (output_text items); [congruence|reflexivity]. }
  destruct (generate_drafts db rt payload) as (D1 & D2 & _).
  destruct (generate_drafts db no_backend payload) as (D1' & _).
  destruct (generate_meta db rt payload) as (_ & _ & _ & E4).
  rewrite E in D2, E4. rewrite generate_exports, D1, D1', D2, E4.
  split; [reflexivity|]. split; [reflexivity|]. split; [|reflexivity].
  apply email_has_draft, str_in_self.
Qed.

Lemma X16_witness :
  standard (drafts (fst (generate latin_db answering_backend initial_request)))
  = str "All systems are operating normally.".
Proof.
  exact (proj1 (X16_backend_text_is_used_as_is latin_db answering_backend
                  initial_request
                  [{| item_type := str "message";
                      item_content :=
                        [{| part_type := str "output_text";
                            part_text := str "All systems are operating normally." |}] |}]
                  eq_refl eq_refl ltac:(vm_compute; discriminate))).
Defined.

(** X17: the text that [try_llm_generate] hands back is never empty and has
    no white space at its start or end, and it hands back text only when an
    API key is set. *)
Theorem X17_backend_text_is_stripped db rt stage payload t :
  try_llm_generate db rt stage payload = Some t ->
  truthy (OPENAI_API_KEY rt) = true /\
  (exists c rest, t = c :: rest /\ is_space c = false) /\
  (exists pre c, t = pre ++ [c] /\ is_space c = false).
Proof.
  intros H. apply try_llm_generate_some in H as (Hk & items & _ & Ht & Hne).
  split; [exact Hk|]. subst t. unfold output_text in *.
  destruct (strip_ends (response_text items)) as (Hhead & Hlast). split.
  - destruct (strip (response_text items)) as [|c rest] eqn:E; [congruence|].
    exists c, rest. split; [reflexivity|]. now apply (Hhead c rest).
  - destruct (exists_last Hne) as (pre & c & E).
    exists pre, c. split; [exact E|]. now apply (Hlast pre c).
Qed.

Lemma X17_witness :
  truthy (OPENAI_API_KEY answering_backend) = true.
Proof.
  exact (proj1 (X17_backend_text_is_stripped latin_db answering_backend
                  (str "initial") initial_request
                  (str "All systems are operating normally.") eq_refl)).
Defined.

(** X18: without an API key the backend is not called: the response and the
    dict are the same whatever the backend and the model of the
    environment. *)
Theorem X18_no_key_no_backend_call db rt rt' payload :
  truthy (OPENAI_API_KEY rt) = false ->
  truthy (OPENAI_API_KEY rt') = false ->
  generate db rt payload = generate db rt' payload.
Proof.
  intros H H'.
  now rewrite (generate_backend_off db rt payload H),
    (generate_backend_off db rt' payload H').
Qed.

Lemma X18_witness :
  generate latin_db no_backend initial_request
  = generate latin_db
      {| OPENAI_API_KEY := Some [];
         OPENAI_MODEL := Some (str "gpt-4o");
         backend := backend answering_backend |}
      initial_request.
Proof.
  apply (X18_no_key_no_backend_call latin_db no_backend
           {| OPENAI_API_KEY := Some [];
              OPENAI_MODEL := Some (str "gpt-4o");
              backend := backend answering_backend |}
           initial_request); reflexivity.
Defined.

(** ** More on [build_prompt] *)

Lemma str_in_here3 a b c rest : str_in (a ++ b ++ c) (a ++ b ++ c ++ rest) = true.
Proof.
  replace (a ++ b ++ c ++ rest) with ((a ++ b ++ c) ++ rest)
    by (now rewrite <- !List.app_assoc).
  apply str_in_here.
Qed.

(** X19: the prompt that [try_llm_generate] sends to the backend names the
    stage, the severity and the next update that the response reports; its
    summary and impact are the sanitized ones, stripped, and its mitigation
    is the one of the request, stripped but not sanitized; the length bound
    is 150 words for the stage "initial", 250 for "resolution" and 200 for
    any other stage. *)
Theorem X19_prompt db (payload : gmap string (list N)) :
  str_in (str "Stage: " ++ request_stage db payload ++ newline)
    (build_prompt db (request_stage db payload) (sanitized_payload db payload))
  = true /\
  str_in (str "Severity: " ++ request_severity payload ++ newline)
    (build_prompt db (request_stage db payload) (sanitized_payload db payload))
  = true /\
  str_in (str "Next-Update: " ++ request_next_update db payload ++ newline)
    (build_prompt db (request_stage db payload) (sanitized_payload db payload))
  = true /\
  str_in (str "MitigationStatus: "
          ++ strip (default (str "investigating") (payload !! "mitigation"))
          ++ newline)
    (build_prompt db (request_stage db payload) (sanitized_payload db payload))
  = true /\
  str_in (str "Impact: "
          ++ strip (text (sanitize_text db (default [] (payload !! "impact"))))
          ++ newline)
    (build_prompt db (request_stage db payload) (sanitized_payload db payload))
  = true /\
  str_in (str "Summary: "
          ++ strip (text (sanitize_text db (default [] (payload !! "summary"))))
          ++ newline)
    (build_prompt db (request_stage db payload) (sanitized_payload db payload))
  = true /\
  str_in (str "Length bound: <= "
          ++ (if decide (request_stage db payload = str "initial") then str "150"
              else if decide (request_stage db payload = str "resolution")
                   then str "250" else str "200")
          ++ str " words.")
    (build_prompt db (request_stage db payload) (sanitized_payload db payload))
  = true.
Proof.
  unfold build_prompt. cbv zeta.
  rewrite sanitized_payload_summary, sanitized_payload_impact.
  rewrite !sanitized_payload_other by done. cbn [default].
  fold (request_severity payload). fold (request_next_update db payload).
  split; [do 4 apply str_in_skip; apply str_in_here3|].
  split; [do 7 apply str_in_skip; apply str_in_here3|].
  split; [do 10 apply str_in_skip; apply str_in_here3|].
  split; [do 13 apply str_in_skip; apply str_in_here3|].
  split; [do 16 apply str_in_skip; apply str_in_here3|].
  split; [do 19 apply str_in_skip; apply str_in_here3|].
  do 23 apply str_in_skip.
  destruct (decide (request_stage db payload = str "initial")) as [E|N1].
  - apply str_in_here3.
  - destruct (decide (request_stage db payload = str "ongoing")) as [E2|N2];
      destruct (decide (request_stage db payload = str "resolution")) as [E3|N3];
      try apply str_in_here3.
    rewrite E2 in E3. vm_compute in E3. discriminate.
Qed.

(** ** More on the response of the backend *)

(** X20: an output item of the backend that is not a message adds nothing
    to the text that [try_llm_generate] collects. *)
Theorem X20_other_items_ignored pre it post :
  item_type it <> str "message" ->
  response_text (pre ++ it :: post) = response_text (pre ++ post).
Proof.
  intros H. unfold response_text. cbv zeta.
  rewrite !flat_map_app. cbn [flat_map].
  destruct (decide (item_type it = str "message")); [contradiction|].
  reflexivity.
Qed.

Lemma X20_witness :
  response_text
    ([] ++ {| item_type := str "reasoning";
              item_content := [{| part_type := str "output_text";
                                  part_text := str "thinking" |}] |}
        :: [{| item_type := str "message";
               item_content := [{| part_type := str "output_text";
                                   part_text := str "Fixed." |}] |}])
  = response_text
      ([] ++ [{| item_type := str "message";
                 item_content := [{| part_type := str "output_text";
                                     part_text := str "Fixed." |}] |}]).
Proof.
  apply X20_other_items_ignored. vm_compute. discriminate.
Defined.

(** X21: every response names a next update: the resolved next update is
    never empty. *)
Theorem X21_next_update_not_empty db rt (payload : gmap string (list N)) :
  meta_next_update (meta (fst (generate db rt payload))) <> [].
Proof.
  destruct (generate_meta db rt payload) as (_ & E & _). rewrite E.
  unfold request_next_update, or_else.
  destruct (payload !! "next_update") as [[|c v]|]; simpl; try discriminate;
    intros H;
    pose proof (default_cadence_range db (request_severity payload)) as Hr;
    rewrite H in Hr; simpl in Hr;
    repeat (destruct Hr as [Hr|Hr]; [vm_compute in Hr; discriminate|]);
    exact Hr.
Qed.
